(** * publication_search: the query compiler and the record extractor

    A shallow embedding of [backend/main.py]: [build_pubmed_query],
    [parse_pubmed_xml] and the response shaping of the two LLM-backed
    handlers, followed by the properties of the specification that were
    checked against them.

    Conventions.
    - A Python [str] is a [string]; its characters are the code points
      U+0000..U+00FF.  The character tables below ([isspace], [is_word],
      [lower_char], [upper_char]) follow CPython's Unicode database on that
      range.  [str.upper] sends three characters of the range out of it
      (U+00B5 to U+039C, U+00DF to the two letters SS, U+00FF to U+0178);
      [upper_char] leaves these three fixed, so [upper] is [str.upper] on
      the strings without them, [upper_exact].  The one place where the
      query shows the upper case of a string is the separator made from
      [search_mode]; the statement about that separator is for an
      [upper_exact] mode.
    - Python's [None] is [None] of [option]; a raised exception is [Raise].
    - The two regular expressions of [build_pubmed_query] are written out as
      scanners, one function per alternative, tried in the order of the
      pattern.
    - A [while] loop is a [Fixpoint] on a number of rounds; the callers pass
      a number that is enough, and the lemmas [findall_from_fuel],
      [phrase_loop_rest] and [token_loop_enough] show that more rounds
      change nothing.
    - [ET.fromstring] is a parameter of [parse_pubmed_xml]: the parser is
      the library's, the function is modelled on the tree it returns.
    - A handler is a function from the requests sent so far to the requests
      sent after it and a value or an exception; what the network answers,
      what the JSON parser returns and what [str] makes of an exception
      come from a [Runtime].  What a function prints is left out. *)

From Stdlib Require Import String Ascii List Arith Bool NArith Lia.
From stdpp Require Import gmap strings.
Import ListNotations.

Set Warnings "-register-all".

(** ** Python strings *)

Module PyStr.

Definition code (c : ascii) : N := N_of_ascii c.

Definition in_range (lo hi : N) (c : ascii) : bool :=
  ((lo <=? code c) && (code c <=? hi))%N.

Definition dquote : ascii := ascii_of_N 34.
Definition is_dquote (c : ascii) : bool := (code c =? 34)%N.
Definition is_paren (c : ascii) : bool := (code c =? 40)%N || (code c =? 41)%N.
Definition is_comma (c : ascii) : bool := (code c =? 44)%N.
Definition is_blank (c : ascii) : bool := (code c =? 32)%N.

(** [str.isspace] on one character: the whitespace [str.strip] removes. *)
Definition isspace (c : ascii) : bool :=
  in_range 9 13 c || in_range 28 32 c || (code c =? 133)%N || (code c =? 160)%N.

(** The class [[A-Za-z0-9]], also under [re.IGNORECASE]. *)
Definition is_alnum (c : ascii) : bool :=
  in_range 48 57 c || in_range 65 90 c || in_range 97 122 c.

(** [\w] of a [str] pattern: alphanumeric in the Unicode sense, or [_]. *)
Definition is_word (c : ascii) : bool :=
  is_alnum c || (code c =? 95)%N
  || (code c =? 170)%N || in_range 178 179 c || (code c =? 181)%N
  || in_range 185 186 c || in_range 188 190 c
  || in_range 192 214 c || in_range 216 246 c || in_range 248 255 c.

Definition lower_char (c : ascii) : ascii :=
  if in_range 65 90 c || in_range 192 214 c || in_range 216 222 c
  then ascii_of_N (code c + 32) else c.

(** [str.upper] on one character, for every character but U+00B5, U+00DF
    and U+00FF: the upper case of these three is not in the range, and they
    are left as they are (see [upper_exact]). *)
Definition upper_char (c : ascii) : ascii :=
  if in_range 97 122 c || in_range 224 246 c || in_range 248 254 c
  then ascii_of_N (code c - 32) else c.

Fixpoint smap (f : ascii -> ascii) (s : string) : string :=
  match s with
  | EmptyString => EmptyString
  | String c s' => String (f c) (smap f s')
  end.

Definition lower : string -> string := smap lower_char.
Definition upper : string -> string := smap upper_char.

(** Python truthiness of a [str]. *)
Definition nonempty (s : string) : bool :=
  match s with EmptyString => false | String _ _ => true end.

Fixpoint lstrip (s : string) : string :=
  match s with
  | EmptyString => EmptyString
  | String c s' => if isspace c then lstrip s' else s
  end.

Fixpoint rstrip (s : string) : string :=
  match s with
  | EmptyString => EmptyString
  | String c s' =>
      match rstrip s' with
      | EmptyString => if isspace c then EmptyString else String c EmptyString
      | r => String c r
      end
  end.

Definition strip (s : string) : string := rstrip (lstrip s).

(** [c in s] for a one-character [c]. *)
Fixpoint has_char (p : ascii -> bool) (s : string) : bool :=
  match s with
  | EmptyString => false
  | String c s' => p c || has_char p s'
  end.

(** [s.split(sep)] for a one-character separator. *)
Fixpoint split (sep : ascii -> bool) (s : string) : list string :=
  match s with
  | EmptyString => [EmptyString]
  | String c s' =>
      if sep c then EmptyString :: split sep s'
      else match split sep s' with
           | piece :: pieces => String c piece :: pieces
           | [] => [String c EmptyString]
           end
  end.

(** [sep.join(l)]. *)
Fixpoint join (sep : string) (l : list string) : string :=
  match l with
  | [] => EmptyString
  | [x] => x
  | x :: l' => x +:+ sep +:+ join sep l'
  end.

Definition startswith (c : ascii -> bool) (s : string) : bool :=
  match s with EmptyString => false | String a _ => c a end.

Fixpoint endswith (c : ascii -> bool) (s : string) : bool :=
  match s with
  | EmptyString => false
  | String a EmptyString => c a
  | String _ s' => endswith c s'
  end.

(** [needle in hay]. *)
Fixpoint contains (needle hay : string) : bool :=
  String.prefix needle hay
  || match hay with
     | EmptyString => false
     | String _ hay' => contains needle hay'
     end.

(** [x in l] for a list of strings. *)
Definition in_list (x : string) (l : list string) : bool :=
  existsb (String.eqb x) l.

(** The longest prefix whose characters satisfy [p], and the rest. *)
Fixpoint span (p : ascii -> bool) (s : string) : string * string :=
  match s with
  | EmptyString => (EmptyString, EmptyString)
  | String c s' =>
      if p c then let (w, r) := span p s' in (String c w, r)
      else (EmptyString, s)
  end.

(** The characters of [s] that satisfy [p], in order. *)
Fixpoint keep (p : ascii -> bool) (s : string) : string :=
  match s with
  | EmptyString => EmptyString
  | String c s' => if p c then String c (keep p s') else keep p s'
  end.

(** Every character of [s] satisfies [p]. *)
Fixpoint all_chars (p : ascii -> bool) (s : string) : bool :=
  match s with
  | EmptyString => true
  | String c s' => p c && all_chars p s'
  end.

Fixpoint last_char (d : option ascii) (s : string) : option ascii :=
  match s with
  | EmptyString => d
  | String c s' => last_char (Some c) s'
  end.

End PyStr.
Import PyStr.

(** ** The regular expressions of [build_pubmed_query]

    A scanner is run at a position of the subject: [prev] is the character
    before the position ([None] at the start of the subject) and [s] the
    text from the position on.  A successful match returns the matched text
    and the text after it. *)

Module Re.

(** [\b]: exactly one of the two neighbours is a word character. *)
Definition word_boundary (prev : option ascii) (s : string) : bool :=
  xorb (match prev with Some c => is_word c | None => false end)
       (match s with String c _ => is_word c | EmptyString => false end).

(** A literal under [re.IGNORECASE].  For the letters of [AND] and [OR]
    only the two ASCII cases match. *)
Fixpoint literal_i (lit s : string) : option (string * string) :=
  match lit, s with
  | EmptyString, _ => Some (EmptyString, s)
  | String a lit', String c s' =>
      if Ascii.eqb (lower_char a) (lower_char c) then
        match literal_i lit' s' with
        | Some (m, r) => Some (String c m, r)
        | None => None
        end
      else None
  | String _ _, EmptyString => None
  end.

(** One operator word and the [\b] behind it. *)
Definition operator_word (lit : string) (prev : option ascii) (s : string)
  : option (string * string) :=
  match literal_i lit s with
  | Some (m, r) => if word_boundary (last_char prev m) r then Some (m, r) else None
  | None => None
  end.

(** [\b(?:AND|OR)\b]. *)
Definition operator (prev : option ascii) (s : string) : option (string * string) :=
  if word_boundary prev s then
    match operator_word "AND" prev s with
    | Some m => Some m
    | None => operator_word "OR" prev s
    end
  else None.

(** The first alternative, a quoted phrase: an opening double quote, one
    or more characters that are not a double quote, a closing double
    quote. *)
Definition quoted (s : string) : option (string * string) :=
  match s with
  | String q s' =>
      if is_dquote q then
        match span (fun c => negb (is_dquote c)) s' with
        | (String b body, String q' r) =>
            Some (String q (String b body +:+ String q' EmptyString), r)
        | _ => None
        end
      else None
  | EmptyString => None
  end.

(** [[()]]. *)
Definition paren (s : string) : option (string * string) :=
  match s with
  | String c s' => if is_paren c then Some (String c EmptyString, s') else None
  | EmptyString => None
  end.

(** [[A-Za-z0-9]+]. *)
Definition word (s : string) : option (string * string) :=
  match span is_alnum s with
  | (String c w, r) => Some (String c w, r)
  | (EmptyString, _) => None
  end.

(** The whole pattern at one position: quoted phrase, parenthesis,
    operator word, run of alphanumerics, the first that matches. *)
Definition token (prev : option ascii) (s : string) : option (string * string) :=
  match quoted s with
  | Some m => Some m
  | None =>
      match paren s with
      | Some m => Some m
      | None =>
          match operator prev s with
          | Some m => Some m
          | None => word s
          end
      end
  end.

(** [re.findall]: scan left to right; after a match go on behind it,
    otherwise one character further.  Every match is non-empty, so
    [String.length s] rounds are enough ([findall_from_fuel] below). *)
Fixpoint findall_from (fuel : nat) (prev : option ascii) (s : string) : list string :=
  match fuel with
  | 0 => []
  | S fuel' =>
      match s with
      | EmptyString => []
      | String c s' =>
          match token prev s with
          | Some (m, r) => m :: findall_from fuel' (last_char prev m) r
          | None => findall_from fuel' (Some c) s'
          end
      end
  end.

Definition findall (s : string) : list string :=
  findall_from (String.length s) None s.

(** [re.search(r'\b(AND|OR)\b', s, re.IGNORECASE)] as a truth value. *)
Fixpoint search_operator (prev : option ascii) (s : string) : bool :=
  match s with
  | EmptyString => false
  | String c s' =>
      match operator prev s with
      | Some _ => true
      | None => search_operator (Some c) s'
      end
  end.

End Re.

(** ** [build_pubmed_query] *)

(** The two lists the token walk tests [token_upper] against. *)
Definition operators : list string := ["AND"; "OR"].
Definition operators_and_parens : list string := ["AND"; "OR"; "("; ")"].

(** The inner [while j < len(tokens)] loop, from its state [phrase_tokens],
    [j]; it returns the state it ends in.  Every round moves [j] forward,
    so [length tokens] rounds are enough. *)
Fixpoint phrase_loop (fuel : nat) (tokens phrase_tokens : list string) (j : nat)
  : list string * nat :=
  match fuel with
  | 0 => (phrase_tokens, j)
  | S fuel' =>
      match tokens !! j with
      | None => (phrase_tokens, j)
      | Some next_token =>
          let next_upper := upper next_token in
          if in_list next_upper operators_and_parens then (phrase_tokens, j)
          else if startswith is_dquote next_token then (phrase_tokens, j)
          else phrase_loop fuel' tokens (phrase_tokens ++ [next_token]) (j + 1)
      end
  end.

(** The outer [while i < len(tokens)] loop, from its state [result_tokens],
    [i]; it returns [result_tokens] as the loop leaves it.  Every round
    moves [i] forward, so [length tokens] rounds are enough. *)
Fixpoint token_loop (fuel : nat) (field_tag : string)
    (tokens result_tokens : list string) (i : nat) : list string :=
  match fuel with
  | 0 => result_tokens
  | S fuel' =>
      match tokens !! i with
      | None => result_tokens
      | Some token =>
          let token_upper := upper token in
          if in_list token_upper operators_and_parens then
            token_loop fuel' field_tag tokens
              (result_tokens
                 ++ [if in_list token_upper operators then token_upper else token])
              (i + 1)
          else if startswith is_dquote token && endswith is_dquote token then
            token_loop fuel' field_tag tokens
              (result_tokens ++ [token +:+ field_tag]) (i + 1)
          else
            let (phrase_tokens, j) :=
              phrase_loop (length tokens) tokens [token] (i + 1) in
            let phrase := join " " phrase_tokens in
            token_loop fuel' field_tag tokens
              (result_tokens
                 ++ [if 1 <? length phrase_tokens
                     then String dquote phrase +:+ String dquote field_tag
                     else phrase +:+ field_tag])
              j
      end
  end.

(** The [if]/[elif] chain that sets [field_tag]; anything but the three
    names leaves the initial empty tag. *)
Definition field_tag_of (search_fields : string) : string :=
  if String.eqb search_fields "title" then "[Title]"
  else if String.eqb search_fields "abstract" then "[Abstract]"
  else if String.eqb search_fields "title_abstract" then "[Title/Abstract]"
  else "".

(** The test [has_parentheses or has_operators]. *)
Definition is_complex (keywords : string) : bool :=
  let has_parentheses := has_char is_paren keywords in
  let has_operators := Re.search_operator None keywords in
  has_parentheses || has_operators.

(** The body of the loop that fills [tagged_terms]. *)
Definition tag_term (field_tag term : string) : string :=
  if has_char is_blank term
  then String dquote term +:+ String dquote field_tag
  else term +:+ field_tag.

(** The function: the complex branch tokenizes the trimmed keywords and
    walks the tokens; the simple branch splits on commas. *)
Definition build_pubmed_query (keywords search_mode search_fields : string) : string :=
  let field_tag := field_tag_of search_fields in
  if is_complex keywords then
    let query := strip keywords in
    let tokens := Re.findall query in
    let result_tokens := token_loop (length tokens) field_tag tokens [] 0 in
    join " " result_tokens
  else
    let terms := List.filter (fun t => nonempty t) (map strip (split is_comma keywords)) in
    let terms := if length terms =? 0 then [strip keywords] else terms in
    if (length terms =? 0)
       || ((length terms =? 1) && negb (nonempty (hd EmptyString terms)))
    then ""
    else
      let tagged_terms := map (tag_term field_tag) terms in
      let operator := " " +:+ upper search_mode +:+ " " in
      join operator tagged_terms.

(** ** XML elements and the ElementPath queries of [parse_pubmed_xml] *)

(** An [xml.etree.ElementTree.Element]: tag, attribute dictionary, the text
    before the first child ([None] when there is none) and the children. *)
Inductive Element : Type :=
  mkElement (tag : string) (attrib : gmap string string)
            (text : option string) (children : list Element).

Definition tag (e : Element) : string :=
  match e with mkElement t _ _ _ => t end.
Definition attrib (e : Element) : gmap string string :=
  match e with mkElement _ a _ _ => a end.
Definition text (e : Element) : option string :=
  match e with mkElement _ _ x _ => x end.
Definition children (e : Element) : list Element :=
  match e with mkElement _ _ _ cs => cs end.

Module ElementPath.

(** [Element.iter()]: the element, then its descendants, in document order. *)
Fixpoint iter (e : Element) : list Element :=
  match e with
  | mkElement _ _ _ cs =>
      e :: (fix iter_all (l : list Element) : list Element :=
              match l with
              | [] => []
              | c :: l' => iter c ++ iter_all l'
              end) cs
  end.

(** What [iter] yields after the element itself. *)
Definition descendants (e : Element) : list Element :=
  flat_map iter (children e).

Definition has_tag (t : string) (e : Element) : bool := String.eqb (tag e) t.

(** [e.findall(".//t")] and [e.find(".//t")]. *)
Definition findall_desc (t : string) (e : Element) : list Element :=
  List.filter (fun x => has_tag t x) (descendants e).
Definition find_desc (t : string) (e : Element) : option Element :=
  head (findall_desc t e).

(** [e.find("t")]: the first child with tag [t]. *)
Definition findall_child (t : string) (e : Element) : list Element :=
  List.filter (fun x => has_tag t x) (children e).
Definition find_child (t : string) (e : Element) : option Element :=
  head (findall_child t e).

(** [e.find(".//t1/t2")]: the [t2] children of the [t1] descendants. *)
Definition find_desc_child (t1 t2 : string) (e : Element) : option Element :=
  head (flat_map (findall_child t2) (findall_desc t1 e)).

(** [e.find(".//t[@key='value']")]. *)
Definition find_desc_attr (t key value : string) (e : Element) : option Element :=
  head (List.filter (fun x => bool_decide (attrib x !! key = Some value))
               (findall_desc t e)).

End ElementPath.
Import ElementPath.

(** ** Exceptions *)

Inductive Exception : Type :=
| ParseError                (* raised by [ET.fromstring] *)
| ValidationError.          (* raised by the pydantic constructor *)

Inductive result (A : Type) : Type :=
| Ok (a : A)
| Raise (e : Exception).
Arguments Ok {A} a.
Arguments Raise {A} e.

Definition bind {A B : Type} (m : result A) (k : A -> result B) : result B :=
  match m with
  | Ok a => k a
  | Raise e => Raise e
  end.

Notation "x <- m ;; k" := (bind m (fun x => k))
  (at level 100, m at level 50, right associativity).

(** ** The [Article] model *)

Module Article.

Record t : Type := mk {
  id : string;
  title : string;
  authors : list string;
  abstract : string;
  publication_date : option string;
  source : string;
  url : string;
  journal : option string;
  is_open_access : option bool;
  has_dataset : option bool;
  classification_reason : option string;
  data_availability : option string;
  labels : option (list string);
  method_types : option (list string)
}.

(** pydantic validation of a field annotated [str]: [None] is rejected. *)
Definition validate_str (v : option string) : result string :=
  match v with
  | Some s => Ok s
  | None => Raise ValidationError
  end.

(** A field annotated [List[str]]: every item is validated as [str]. *)
Fixpoint validate_list_str (l : list (option string)) : result (list string) :=
  match l with
  | [] => Ok []
  | v :: l' =>
      s <- validate_str v ;;
      ss <- validate_list_str l' ;;
      Ok (s :: ss)
  end.

(** [Article(id=..., title=..., ...)] as [parse_pubmed_xml] calls it: the
    nine keyword arguments it passes; the other fields take their default
    [None]. *)
Definition init (id title : option string) (authors : list (option string))
    (abstract publication_date : option string) (source url : string)
    (journal : option string) (is_open_access : bool) : result t :=
  id' <- validate_str id ;;
  title' <- validate_str title ;;
  authors' <- validate_list_str authors ;;
  abstract' <- validate_str abstract ;;
  Ok (mk id' title' authors' abstract' publication_date source url journal
         (Some is_open_access) None None None None None).

End Article.

(** ** [parse_pubmed_xml] *)

(** [f"{x}"] for an [x] that is a [str] or [None]. *)
Definition format (x : option string) : string :=
  match x with
  | Some s => s
  | None => "None"
  end.

(** One round of the loop over the [Author] elements: what is appended to
    [authors], if anything. *)
Definition author_name (author_elem : Element) : list (option string) :=
  let lastname := find_child "LastName" author_elem in
  let firstname := find_child "ForeName" author_elem in
  match lastname with
  | Some lastname =>
      let name := text lastname in
      let name :=
        match firstname with
        | Some firstname => Some (format (text firstname) +:+ " " +:+ format name)
        | None => name
        end in
      [name]
  | None => []
  end.

(** The test of the loop over the [PublicationType] elements. *)
Definition marks_open_access (pt : Element) : bool :=
  match text pt with
  | Some t => nonempty t && contains "open access" (lower t)
  | None => false
  end.

(** The body of the loop over the article elements, up to the [Article] it
    appends. *)
Definition extract_article (article_elem : Element) : result Article.t :=
  let pmid_elem := find_desc "PMID" article_elem in
  let pmid := match pmid_elem with Some e => text e | None => Some "unknown" end in
  let title_elem := find_desc "ArticleTitle" article_elem in
  let title := match title_elem with Some e => text e | None => Some "No title" end in
  let abstract_elem := find_desc "AbstractText" article_elem in
  let abstract :=
    match abstract_elem with
    | Some e => text e
    | None => Some "No abstract available"
    end in
  let authors := flat_map author_name (findall_desc "Author" article_elem) in
  let pub_date_elem := find_desc_child "PubDate" "Year" article_elem in
  let pub_date := match pub_date_elem with Some e => text e | None => None end in
  let journal_elem := find_desc_child "Journal" "Title" article_elem in
  let journal_elem :=
    match journal_elem with
    | None => find_desc_child "Journal" "ISOAbbreviation" article_elem
    | Some e => Some e
    end in
  let journal := match journal_elem with Some e => text e | None => None end in
  let is_open_access := false in
  let oa_elem := find_desc_attr "ArticleId" "IdType" "pmc" article_elem in
  let is_open_access :=
    match oa_elem with Some _ => true | None => is_open_access end in
  let pub_type_elems := findall_desc "PublicationType" article_elem in
  let is_open_access :=
    fold_left (fun acc pt => if marks_open_access pt then true else acc)
              pub_type_elems is_open_access in
  Article.init pmid title authors abstract pub_date "pubmed"
    ("https://pubmed.ncbi.nlm.nih.gov/" +:+ format pmid +:+ "/")
    journal is_open_access.

(** The [for article_elem in ...] loop: [articles] is the list built so
    far; an exception leaves the loop with the list as it is then. *)
Fixpoint for_each_article (elems : list Element) (articles : list Article.t)
  : list Article.t * result unit :=
  match elems with
  | [] => (articles, Ok tt)
  | article_elem :: elems' =>
      match extract_article article_elem with
      | Ok a => for_each_article elems' (articles ++ [a])
      | Raise e => (articles, Raise e)
      end
  end.

Section Parse.

(** [ET.fromstring]: the root element of a well-formed document,
    [ParseError] otherwise. *)
Variable fromstring : string -> result Element.

(** The body of the [try]. *)
Definition try_body (xml_text : string) (articles : list Article.t)
  : list Article.t * result unit :=
  match fromstring xml_text with
  | Ok root => for_each_article (findall_desc "PubmedArticle" root) articles
  | Raise e => (articles, Raise e)
  end.

(** [except Exception] only prints, and [return articles] follows it on
    both paths. *)
Definition parse_pubmed_xml (xml_text : string) (pmids : list string)
  : list Article.t :=
  let articles := [] in
  let (articles, _) := try_body xml_text articles in
  articles.

End Parse.

(** ** The responses of [/generate-query] and [/classify] *)

(** What [json.loads] returns.  A number is kept as its literal: no handler
    looks inside a value. *)
Inductive value : Type :=
| VNone
| VBool (b : bool)
| VNum (literal : string)
| VStr (s : string)
| VList (l : list value)
| VDict (d : gmap string value).

(** [d.get(key, default)]. *)
Definition get (d : gmap string value) (key : string) (default : value) : value :=
  match d !! key with
  | Some v => v
  | None => default
  end.

(** The dictionary [generate_query] returns, from the parsed content. *)
Definition generate_query_response (query_result : gmap string value)
  : gmap string value :=
  list_to_map
    [ ("pubmed_query", get query_result "pubmed_query" (VStr ""));
      ("extracted_concepts", get query_result "extracted_concepts" (VList []));
      ("synonyms_used", get query_result "synonyms_used" (VDict ∅));
      ("explanation", get query_result "explanation" (VStr "")) ].

(** The dictionary [classify_abstract] returns. *)
Definition classify_response (article_id : string) (classification : gmap string value)
  : gmap string value :=
  list_to_map
    [ ("article_id", VStr article_id);
      ("has_dataset", get classification "has_dataset" (VBool false));
      ("confidence", get classification "confidence" (VStr "low"));
      ("reason", get classification "reason" (VStr "Unable to determine"));
      ("data_availability", get classification "data_availability" VNone);
      ("labels", get classification "labels" (VList []));
      ("method_types", get classification "method_types" (VList [])) ].

(** ** Python values at run time

    What the handlers do with the values [json.loads] and [response.json()]
    return: membership, subscripts, truth and [str.join], with the
    exceptions Python raises on a value of the wrong type. *)

Inductive PyError : Type :=
| TypeError
| KeyError
| IndexError
| AttributeError
| RequestError               (* raised by the HTTP client *)
| JSONDecodeError            (* raised by [response.json()] and [json.loads] *)
| HTTPException (status_code : Z) (detail : string).

Inductive outcome (A : Type) : Type :=
| Val (a : A)
| Exc (e : PyError).
Arguments Val {A} a.
Arguments Exc {A} e.

Definition outcome_bind {A B : Type} (m : outcome A) (k : A -> outcome B) : outcome B :=
  match m with
  | Val a => k a
  | Exc e => Exc e
  end.

Notation "x <-? m ;; k" := (outcome_bind m (fun x => k))
  (at level 100, m at level 50, right associativity).

(** A query parameter of a [GET]: a string or an integer. *)
Inductive param : Type :=
| PStr (s : string)
| PInt (n : Z).

Inductive Request : Type :=
| GET (url : string) (params : list (string * param))
| POST (url : string) (headers : list (string * string)) (json : value)
       (timeout : string).

Module Response.

Record t : Type := mk {
  status_code : Z;
  text : string;
  json : outcome value          (* [response.json()] *)
}.

End Response.

(** What the library and the surroundings of a run decide: the replies of
    the network, the two parsers, the text of an exception, and two things
    the type [value] does not hold, the truth of a number and the order in
    which a dictionary yields its keys. *)
Record Runtime : Type := {
  send : Request -> outcome Response.t;
  json_loads : string -> outcome value;
  fromstring : string -> result Element;
  str : PyError -> string;
  number_truthy : string -> bool;
  dict_keys : gmap string value -> list string
}.

(** [key in v]. *)
Definition py_in (key : string) (v : value) : outcome bool :=
  match v with
  | VDict d => Val (match d !! key with Some _ => true | None => false end)
  | VList l =>
      Val (existsb (fun x => match x with
                             | VStr s => String.eqb s key
                             | _ => false
                             end) l)
  | VStr s => Val (contains key s)
  | VNone | VBool _ | VNum _ => Exc TypeError
  end.

(** [v[key]] for a string [key]. *)
Definition getitem (v : value) (key : string) : outcome value :=
  match v with
  | VDict d => match d !! key with Some x => Val x | None => Exc KeyError end
  | _ => Exc TypeError
  end.

(** [v[n]] for a natural number [n]. *)
Definition getitem_at (v : value) (n : nat) : outcome value :=
  match v with
  | VList l => match l !! n with Some x => Val x | None => Exc IndexError end
  | VStr s =>
      match String.get n s with
      | Some c => Val (VStr (String c EmptyString))
      | None => Exc IndexError
      end
  | VDict _ => Exc KeyError
  | VNone | VBool _ | VNum _ => Exc TypeError
  end.

(** The truth of a value, as [if not v] tests it. *)
Definition truthy (rt : Runtime) (v : value) : bool :=
  match v with
  | VNone => false
  | VBool b => b
  | VNum literal => number_truthy rt literal
  | VStr s => nonempty s
  | VList l => match l with [] => false | _ :: _ => true end
  | VDict d => negb (Nat.eqb (size d) 0)
  end.

Fixpoint all_str (l : list value) : outcome (list string) :=
  match l with
  | [] => Val []
  | VStr s :: l' => items <-? all_str l' ;; Val (s :: items)
  | _ :: _ => Exc TypeError
  end.

Definition chars (s : string) : list string :=
  map (fun c => String c EmptyString) (list_ascii_of_string s).

(** [sep.join(v)]. *)
Definition py_join (rt : Runtime) (sep : string) (v : value) : outcome string :=
  match v with
  | VList l => items <-? all_str l ;; Val (join sep items)
  | VStr s => Val (join sep (chars s))
  | VDict d => Val (join sep (dict_keys rt d))
  | VNone | VBool _ | VNum _ => Exc TypeError
  end.

(** [json.loads(v)]. *)
Definition py_loads (rt : Runtime) (v : value) : outcome value :=
  match v with
  | VStr s => json_loads rt s
  | _ => Exc TypeError
  end.

(** The receiver of [.get]: a dictionary, or [AttributeError]. *)
Definition as_dict (v : value) : outcome (gmap string value) :=
  match v with
  | VDict d => Val d
  | _ => Exc AttributeError
  end.

(** The string items of a list: the shape in which [pmids] is handed to
    [parse_pubmed_xml], which does not read it. *)
Definition str_items (v : value) : list string :=
  match v with
  | VList l =>
      flat_map (fun x => match x with VStr s => [s] | _ => [] end) l
  | _ => []
  end.

(** ** Handlers: requests sent so far, and a value or an exception *)

Definition IO (A : Type) : Type := list Request -> list Request * outcome A.

Definition io_ret {A : Type} (a : A) : IO A := fun sent => (sent, Val a).

Definition io_raise {A : Type} (e : PyError) : IO A := fun sent => (sent, Exc e).

Definition io_bind {A B : Type} (m : IO A) (k : A -> IO B) : IO B :=
  fun sent =>
    match m sent with
    | (sent', Val a) => k a sent'
    | (sent', Exc e) => (sent', Exc e)
    end.

Definition io_lift {A : Type} (m : outcome A) : IO A := fun sent => (sent, m).

(** [try: body  except Exception as e: handler]. *)
Definition try_except {A : Type} (body : IO A) (handler : PyError -> IO A) : IO A :=
  fun sent =>
    match body sent with
    | (sent', Val a) => (sent', Val a)
    | (sent', Exc e) => handler e sent'
    end.

(** [await client.get(...)] and [await client.post(...)]. *)
Definition http (rt : Runtime) (r : Request) : IO Response.t :=
  fun sent => (sent ++ [r], send rt r).

Notation "x <-! m ;; k" := (io_bind m (fun x => k))
  (at level 100, m at level 50, right associativity).

(** ** The request models *)

Module SearchRequest.

Record t : Type := mk {
  keywords : string;
  source : string;
  max_results : Z;
  search_mode : string;
  search_fields : string
}.

End SearchRequest.

Module ClassificationRequest.

Record t : Type := mk {
  article_id : string;
  abstract : string
}.

End ClassificationRequest.

Module QueryGenerationRequest.

Record t : Type := mk {
  natural_language_query : string
}.

End QueryGenerationRequest.

(** ** [search_pubmed], [search_biorxiv] and [search_publications] *)

Definition eutils : string := "https://eutils.ncbi.nlm.nih.gov/entrez/eutils".

Definition esearch_request (query : string) (max_results : Z) : Request :=
  GET (eutils +:+ "/esearch.fcgi")
      [ ("db", PStr "pubmed"); ("term", PStr query);
        ("retmax", PInt max_results); ("retmode", PStr "json") ].

Definition efetch_request (ids : string) : Request :=
  GET (eutils +:+ "/efetch.fcgi")
      [ ("db", PStr "pubmed"); ("id", PStr ids); ("retmode", PStr "xml") ].

(** The test [if "esearchresult" not in search_data or "idlist" not in
    search_data["esearchresult"]]. *)
Definition no_idlist (search_data : value) : outcome bool :=
  has_result <-? py_in "esearchresult" search_data ;;
  if negb has_result then Val true
  else
    esearchresult <-? getitem search_data "esearchresult" ;;
    has_idlist <-? py_in "idlist" esearchresult ;;
    Val (negb has_idlist).

Definition search_pubmed (rt : Runtime) (keywords : string) (max_results : Z)
    (search_mode search_fields : string) : IO (list Article.t) :=
  let query := build_pubmed_query keywords search_mode search_fields in
  search_response <-! http rt (esearch_request query max_results) ;;
  search_data <-! io_lift (Response.json search_response) ;;
  short <-! io_lift (no_idlist search_data) ;;
  if short then io_ret []
  else
    pmids <-! io_lift (esearchresult <-? getitem search_data "esearchresult" ;;
                       getitem esearchresult "idlist") ;;
    if negb (truthy rt pmids) then io_ret []
    else
      ids <-! io_lift (py_join rt "," pmids) ;;
      fetch_response <-! http rt (efetch_request ids) ;;
      let articles :=
        parse_pubmed_xml (fromstring rt) (Response.text fetch_response)
                         (str_items pmids) in
      io_ret articles.

Definition search_biorxiv (keywords : string) (max_results : Z) : IO (list Article.t) :=
  let articles := [] in
  io_ret articles.

Definition search_publications (rt : Runtime) (request : SearchRequest.t)
  : IO (list Article.t) :=
  if String.eqb (SearchRequest.source request) "pubmed" then
    search_pubmed rt (SearchRequest.keywords request)
                  (SearchRequest.max_results request)
                  (SearchRequest.search_mode request)
                  (SearchRequest.search_fields request)
  else if String.eqb (SearchRequest.source request) "biorxiv" then
    search_biorxiv (SearchRequest.keywords request)
                   (SearchRequest.max_results request)
  else
    io_raise (HTTPException 400 "Invalid source. Use 'pubmed' or 'biorxiv'").

(** ** [generate_query] and [classify_abstract] *)

Definition newline : string := String (ascii_of_N 10) EmptyString.
Definition dq : string := String dquote EmptyString.
Definition lines (l : list string) : string := join newline l.

Definition generate_query_prompt_head : string :=
  lines
    [ "You are an expert in PubMed search query optimization and metabolomics research terminology.";
      "";
      "Convert the following natural language search request into an optimized PubMed search query.";
      "";
      ("User's request: " +:+ dq) ].

Definition generate_query_prompt_tail : string :=
  lines
    [ dq;
      "";
      "Your task:";
      "1. Extract the main keywords and concepts";
      "2. Identify synonyms, abbreviations, and related terms that should be included";
      "3. Construct a PubMed query using boolean operators (AND, OR) and parentheses";
      "4. Use OR to group synonyms/related terms, and AND to combine different concepts";
      ("5. Consider common variations (e.g., " +:+ dq +:+ "SRM 1950" +:+ dq +:+ " vs " +:+ dq +:+ "SRM1950" +:+ dq +:+ ", " +:+ dq +:+ "HILIC" +:+ dq +:+ " vs " +:+ dq +:+ "hydrophilic interaction liquid chromatography" +:+ dq +:+ ")");
      "";
      "Examples:";
      ("- Input: " +:+ dq +:+ "Find databases related to SRM 1950 and HILIC" +:+ dq);
      ("  Output: (SRM 1950 OR SRM1950 OR " +:+ dq +:+ "standard reference material 1950" +:+ dq +:+ ") AND (HILIC OR " +:+ dq +:+ "hydrophilic interaction liquid chromatography" +:+ dq +:+ " OR " +:+ dq +:+ "hydrophilic interaction chromatography" +:+ dq +:+ ") AND (database OR repository OR data)");
      "";
      ("- Input: " +:+ dq +:+ "metabolomics studies using mass spectrometry" +:+ dq);
      ("  Output: (metabolomics OR metabolome OR " +:+ dq +:+ "metabolic profiling" +:+ dq +:+ ") AND (" +:+ dq +:+ "mass spectrometry" +:+ dq +:+ " OR MS OR " +:+ dq +:+ "mass spec" +:+ dq +:+ " OR LC-MS OR GC-MS)");
      "";
      "Respond in JSON format with:";
      ("- " +:+ dq +:+ "pubmed_query" +:+ dq +:+ ": the optimized PubMed search query string");
      ("- " +:+ dq +:+ "extracted_concepts" +:+ dq +:+ ": array of main concepts identified");
      ("- " +:+ dq +:+ "synonyms_used" +:+ dq +:+ ": object mapping each concept to its synonyms/variations included");
      ("- " +:+ dq +:+ "explanation" +:+ dq +:+ ": brief explanation of the query strategy (1-2 sentences)");
      "" ].

Definition classify_prompt_head : string :=
  lines
    [ "Analyze the following metabolomics scientific abstract and provide a comprehensive classification.";
      "";
      "## DATASET CLASSIFICATION (Primary)";
      ("Only classify as " +:+ dq +:+ "has_dataset" +:+ dq +:+ ": true if the abstract EXPLICITLY mentions:");
      "1. Data availability in a public repository (e.g., MetaboLights, Metabolomics Workbench, GNPS, etc.)";
      "2. Data deposition with accession numbers";
      "3. Clear statement that data is publicly accessible or available upon request";
      "";
      "DO NOT classify as having a dataset if:";
      "- The abstract only describes methods or analytical techniques";
      "- It mentions using existing reference materials (like SRM 1950) without publishing new data";
      "- It compares methods without explicit data availability statements";
      "- Data availability is not mentioned or unclear";
      "";
      "## ARTICLE TYPE LABELS";
      "Assign appropriate labels from this list (can be multiple):";
      ("- " +:+ dq +:+ "Method Development" +:+ dq +:+ " - Focuses on developing, comparing, or optimizing analytical methods");
      ("- " +:+ dq +:+ "Review" +:+ dq +:+ " - Review article or meta-analysis");
      ("- " +:+ dq +:+ "Application Study" +:+ dq +:+ " - Applies metabolomics to study biological questions");
      ("- " +:+ dq +:+ "Reference Material" +:+ dq +:+ " - Characterizes reference materials or standards");
      ("- " +:+ dq +:+ "Software/Tool" +:+ dq +:+ " - Presents new software, databases, or computational tools");
      "";
      "## METHOD TYPES (if Method Development label applies)";
      "If the article is about method development, extract the analytical method types mentioned:";
      ("Examples: " +:+ dq +:+ "LC-MS" +:+ dq +:+ ", " +:+ dq +:+ "GC-MS" +:+ dq +:+ ", " +:+ dq +:+ "NMR" +:+ dq +:+ ", " +:+ dq +:+ "CE-MS" +:+ dq +:+ ", " +:+ dq +:+ "HILIC" +:+ dq +:+ ", " +:+ dq +:+ "UPLC" +:+ dq +:+ ", " +:+ dq +:+ "QTOF" +:+ dq +:+ ", " +:+ dq +:+ "Orbitrap" +:+ dq +:+ ", " +:+ dq +:+ "FT-ICR" +:+ dq +:+ ", etc.");
      "Only include if explicitly mentioned in the abstract.";
      "";
      "Abstract:";
      "" ].

Definition classify_prompt_tail : string :=
  lines
    [ "";
      "";
      "Respond in JSON format with:";
      ("- " +:+ dq +:+ "has_dataset" +:+ dq +:+ ": true or false (be STRICT - only true if data availability is explicitly stated)");
      ("- " +:+ dq +:+ "confidence" +:+ dq +:+ ": " +:+ dq +:+ "high" +:+ dq +:+ ", " +:+ dq +:+ "medium" +:+ dq +:+ ", or " +:+ dq +:+ "low" +:+ dq);
      ("- " +:+ dq +:+ "reason" +:+ dq +:+ ": brief explanation of your decision (1-2 sentences)");
      ("- " +:+ dq +:+ "data_availability" +:+ dq +:+ ": if has_dataset is true, extract the data availability statement or repository information; otherwise null");
      ("- " +:+ dq +:+ "labels" +:+ dq +:+ ": array of applicable labels from the list above (e.g., [" +:+ dq +:+ "Method Development" +:+ dq +:+ ", " +:+ dq +:+ "Application Study" +:+ dq +:+ "])");
      ("- " +:+ dq +:+ "method_types" +:+ dq +:+ ": array of method types if Method Development label applies; otherwise empty array or null");
      "" ].

Definition chat_completions : string := "https://api.openai.com/v1/chat/completions".

(** The [json=] argument of the two calls. *)
Definition chat_body (system prompt : string) : value :=
  VDict (list_to_map
    [ ("model", VStr "gpt-4o-mini");
      ("messages",
       VList [ VDict (list_to_map [ ("role", VStr "system"); ("content", VStr system) ]);
               VDict (list_to_map [ ("role", VStr "user"); ("content", VStr prompt) ]) ]);
      ("response_format", VDict (list_to_map [ ("type", VStr "json_object") ]));
      ("temperature", VNum "0.3") ]).

Definition chat_request (api_key : option string) (system prompt : string) : Request :=
  POST chat_completions
       [ ("Authorization", "Bearer " +:+ format api_key);
         ("Content-Type", "application/json") ]
       (chat_body system prompt) "30.0".

(** [os.getenv] gives a string or [None]; [if not api_key] takes the empty
    string like [None]. *)
Definition key_missing (api_key : option string) : bool :=
  match api_key with
  | Some key => negb (nonempty key)
  | None => true
  end.

(** [result["choices"][0]["message"]["content"]]. *)
Definition message_content (result : value) : outcome value :=
  choices <-? getitem result "choices" ;;
  choice <-? getitem_at choices 0 ;;
  message <-? getitem choice "message" ;;
  getitem message "content".

Definition generate_query (rt : Runtime) (api_key : option string)
    (request : QueryGenerationRequest.t) : IO (gmap string value) :=
  if key_missing api_key then
    io_raise (HTTPException 500 "OpenAI API key not configured")
  else
    let prompt :=
      generate_query_prompt_head
      +:+ QueryGenerationRequest.natural_language_query request
      +:+ generate_query_prompt_tail in
    try_except
      (response <-! http rt
         (chat_request api_key
            "You are an expert in scientific literature search and PubMed query optimization, specializing in metabolomics and analytical chemistry."
            prompt) ;;
       if negb (Z.eqb (Response.status_code response) 200) then
         let error_detail := Response.text response in
         io_raise (HTTPException 500 ("Query generation failed: " +:+ error_detail))
       else
         result <-! io_lift (Response.json response) ;;
         content <-! io_lift (message_content result) ;;
         query_result <-! io_lift (py_loads rt content) ;;
         query_result <-! io_lift (as_dict query_result) ;;
         io_ret (generate_query_response query_result))
      (fun e =>
         io_raise (HTTPException 500 ("Query generation error: " +:+ str rt e))).

Definition classify_abstract (rt : Runtime) (api_key : option string)
    (request : ClassificationRequest.t) : IO (gmap string value) :=
  if key_missing api_key then
    io_raise (HTTPException 500 "OpenAI API key not configured")
  else
    let prompt :=
      classify_prompt_head
      +:+ ClassificationRequest.abstract request
      +:+ classify_prompt_tail in
    try_except
      (response <-! http rt
         (chat_request api_key
            "You are a scientific literature analyst specializing in metabolomics research."
            prompt) ;;
       if negb (Z.eqb (Response.status_code response) 200) then
         let error_detail := Response.text response in
         io_raise (HTTPException 500 ("LLM classification failed: " +:+ error_detail))
       else
         result <-! io_lift (Response.json response) ;;
         content <-! io_lift (message_content result) ;;
         classification <-! io_lift (py_loads rt content) ;;
         classification <-! io_lift (as_dict classification) ;;
         io_ret (classify_response (ClassificationRequest.article_id request)
                                   classification))
      (fun e =>
         io_raise (HTTPException 500 ("Classification error: " +:+ str rt e))).

(** * The vocabulary of the properties *)

(** The defaults the specification documents, key by key. *)
Definition generate_query_defaults : list (string * value) :=
  [ ("pubmed_query", VStr ""); ("extracted_concepts", VList []);
    ("synonyms_used", VDict ∅); ("explanation", VStr "") ].

Definition classify_defaults : list (string * value) :=
  [ ("has_dataset", VBool false); ("confidence", VStr "low");
    ("reason", VStr "Unable to determine"); ("data_availability", VNone);
    ("labels", VList []); ("method_types", VList []) ].

(** The shapes a match of the token pattern can have. *)
Definition token_shape (t : string) : Prop :=
  (startswith is_dquote t = true /\ endswith is_dquote t = true)
  \/ t = "(" \/ t = ")"
  \/ (nonempty t = true /\ all_chars is_alnum t = true).

(** The concatenation of a list of strings. *)
Definition cat (l : list string) : string := fold_right String.append "" l.

(** The two loops of the complex grammar as functions of the tokens still
    to be read: the tokens the inner loop takes into the phrase with the
    tokens it leaves, and what the outer loop appends to [result_tokens]. *)
Fixpoint phrase_rest (tokens : list string) : list string * list string :=
  match tokens with
  | [] => ([], [])
  | next_token :: tokens' =>
      let next_upper := upper next_token in
      if in_list next_upper operators_and_parens then ([], tokens)
      else if startswith is_dquote next_token then ([], tokens)
      else let (phrase_tokens, rest) := phrase_rest tokens' in
           (next_token :: phrase_tokens, rest)
  end.

Fixpoint process_tokens (fuel : nat) (field_tag : string) (tokens : list string)
  : list string :=
  match fuel with
  | 0 => []
  | S fuel' =>
      match tokens with
      | [] => []
      | token :: tokens' =>
          let token_upper := upper token in
          if in_list token_upper operators_and_parens then
            (if in_list token_upper operators then token_upper else token)
              :: process_tokens fuel' field_tag tokens'
          else if startswith is_dquote token && endswith is_dquote token then
            (token +:+ field_tag) :: process_tokens fuel' field_tag tokens'
          else
            let (more, rest) := phrase_rest tokens' in
            let phrase_tokens := token :: more in
            let phrase := join " " phrase_tokens in
            (if 1 <? length phrase_tokens
             then String dquote phrase +:+ String dquote field_tag
             else phrase +:+ field_tag)
              :: process_tokens fuel' field_tag rest
      end
  end.

(** The parentheses of the items of a list, in order. *)
Definition parens_of (l : list string) : string := cat (map (keep is_paren) l).

(** The strings on which [upper] is [str.upper]: those without U+00B5,
    U+00DF and U+00FF.  Every ASCII string is one ([ascii_upper_exact]). *)
Definition upper_exact_char (c : ascii) : bool :=
  negb ((code c =? 181)%N || (code c =? 223)%N || (code c =? 255)%N).

Definition upper_exact (s : string) : bool := all_chars upper_exact_char s.

(** The simple-grammar compilation in the words of the specification: split
    on commas, trim each piece, drop the empty pieces; quote a term that
    has a space; append the field tag; join with the uppercased mode. *)
Definition spec_simple_terms (keywords : string) : list string :=
  List.filter (fun piece => nonempty piece) (map strip (split is_comma keywords)).

Definition spec_tagged (field_tag term : string) : string :=
  (if has_char is_blank term
   then String dquote "" +:+ term +:+ String dquote ""
   else term) +:+ field_tag.

Definition spec_simple_query (keywords search_mode search_fields : string) : string :=
  join (" " +:+ upper search_mode +:+ " ")
       (map (spec_tagged (field_tag_of search_fields)) (spec_simple_terms keywords)).

(** [text] has a part that is [needle] up to the case of its letters. *)
Definition contains_ignoring_case (needle text : string) : Prop :=
  exists pre mid post, text = pre +:+ mid +:+ post /\ lower mid = lower needle.

(** An [ArticleId] element of type [pmc] below the article element. *)
Definition has_pmc_id (article_elem : Element) : Prop :=
  exists x, In x (descendants article_elem)
            /\ tag x = "ArticleId" /\ attrib x !! "IdType" = Some "pmc".

(** A [PublicationType] element below the article element whose text has
    [open access] in it, in any case. *)
Definition has_open_access_type (article_elem : Element) : Prop :=
  exists pt t, In pt (descendants article_elem)
               /\ tag pt = "PublicationType" /\ text pt = Some t
               /\ contains_ignoring_case "open access" t.

(** The flag [extract_article] computes. *)
Definition open_access_flag (article_elem : Element) : bool :=
  (match find_desc_attr "ArticleId" "IdType" "pmc" article_elem with
   | Some _ => true
   | None => false
   end)
  || existsb marks_open_access (findall_desc "PublicationType" article_elem).

(** The articles of the longest run of elements, from the first on, on
    which [extract_article] does not raise. *)
Fixpoint extracted (elems : list Element) : list Article.t :=
  match elems with
  | [] => []
  | e :: elems' =>
      match extract_article e with
      | Ok a => a :: extracted elems'
      | Raise _ => []
      end
  end.

Definition elem (t : string) (cs : list Element) : Element := mkElement t ∅ None cs.
Definition leaf (t x : string) : Element := mkElement t ∅ (Some x) [].

(** An article with a PMC identifier and no open-access publication type. *)
Definition pmc_article : Element :=
  elem "PubmedArticle"
    [ elem "MedlineCitation"
        [ leaf "PMID" "31415";
          elem "Article"
            [ leaf "ArticleTitle" "Lipid profiling of SRM 1950";
              elem "PublicationTypeList"
                [ leaf "PublicationType" "Journal Article" ] ] ];
      elem "PubmedData"
        [ elem "ArticleIdList"
            [ mkElement "ArticleId" {[ "IdType" := "pubmed" ]} (Some "31415") [];
              mkElement "ArticleId" {[ "IdType" := "pmc" ]} (Some "PMC27182") [] ] ] ].

Definition pmc_document : Element := elem "PubmedArticleSet" [pmc_article].

Definition pmc_document_text : string :=
  "<PubmedArticleSet><PubmedArticle><MedlineCitation><PMID>31415</PMID>"
  +:+ "<Article><ArticleTitle>Lipid profiling of SRM 1950</ArticleTitle>"
  +:+ "<PublicationTypeList><PublicationType>Journal Article</PublicationType>"
  +:+ "</PublicationTypeList></Article></MedlineCitation><PubmedData>"
  +:+ "<ArticleIdList><ArticleId IdType='pubmed'>31415</ArticleId>"
  +:+ "<ArticleId IdType='pmc'>PMC27182</ArticleId></ArticleIdList>"
  +:+ "</PubmedData></PubmedArticle></PubmedArticleSet>".

Definition pmc_article_extracted : Article.t :=
  Article.mk "31415" "Lipid profiling of SRM 1950" [] "No abstract available"
    None "pubmed" "https://pubmed.ncbi.nlm.nih.gov/31415/" None (Some true)
    None None None None None.

(** Three records; the title element of the second is empty. *)
Definition record (pmid : string) (title : Element) : Element :=
  elem "PubmedArticle" [ leaf "PMID" pmid; title ].

Definition first_record : Element := record "1" (leaf "ArticleTitle" "First").
Definition second_record : Element := record "2" (elem "ArticleTitle" []).
Definition third_record : Element := record "3" (leaf "ArticleTitle" "Third").

Definition empty_title_document : Element :=
  elem "PubmedArticleSet" [first_record; second_record; third_record].

Definition empty_title_document_text : string :=
  "<PubmedArticleSet>"
  +:+ "<PubmedArticle><PMID>1</PMID><ArticleTitle>First</ArticleTitle></PubmedArticle>"
  +:+ "<PubmedArticle><PMID>2</PMID><ArticleTitle/></PubmedArticle>"
  +:+ "<PubmedArticle><PMID>3</PMID><ArticleTitle>Third</ArticleTitle></PubmedArticle>"
  +:+ "</PubmedArticleSet>".

Definition plain_article (pmid title : string) : Article.t :=
  Article.mk pmid title [] "No abstract available" None "pubmed"
    ("https://pubmed.ncbi.nlm.nih.gov/" +:+ pmid +:+ "/") None (Some false)
    None None None None None.

(** The elements whose text [Article] validates are not empty. *)
Definition text_if_found (found : option Element) : bool :=
  match found with
  | Some e => match text e with Some _ => true | None => false end
  | None => true
  end.

Definition author_has_name (author_elem : Element) : bool :=
  match find_child "LastName" author_elem, find_child "ForeName" author_elem with
  | Some lastname, None => match text lastname with Some _ => true | None => false end
  | _, _ => true
  end.

Definition texts_present (article_elem : Element) : bool :=
  text_if_found (find_desc "PMID" article_elem)
  && text_if_found (find_desc "ArticleTitle" article_elem)
  && text_if_found (find_desc "AbstractText" article_elem)
  && forallb author_has_name (findall_desc "Author" article_elem).

Definition word_before (prev : option ascii) : bool :=
  match prev with Some c => is_word c | None => false end.

(** [AND] or [OR], in any case, stands in [s] as a whole word: no word
    character touches it on either side.  [prev] is the character before
    [s]. *)
Definition operator_as_whole_word (prev : option ascii) (s : string) : Prop :=
  exists pre w post,
    s = pre +:+ w +:+ post
    /\ (lower w = "and" \/ lower w = "or")
    /\ word_before (last_char prev pre) = false
    /\ startswith is_word post = false.

(** ** For the further properties of the query compiler *)

(** The characters a query can have when the keywords have no double
    quote: letters and digits, blanks, parentheses, the quotes put around
    phrases, and the characters of the field tag. *)
Definition query_char (field_tag : string) (c : ascii) : bool :=
  is_alnum c || is_blank c || is_paren c || is_dquote c
  || has_char (Ascii.eqb c) field_tag.

(** The letters and digits of the items of a list, in order. *)
Definition alnums_of (l : list string) : string := cat (map (keep is_alnum) l).

(** What the query has of the letters and digits of a token: an operator
    word, in whatever case, is written in upper case; any other token
    keeps its letters and digits as they are. *)
Definition written (token : string) : string :=
  if in_list (upper token) operators then upper token else keep is_alnum token.

(** ** For the further properties of the record extractor *)

Definition pubmed_url (id : string) : string :=
  "https://pubmed.ncbi.nlm.nih.gov/" +:+ id +:+ "/".

(** The text of the first element with tag [t] below [e] is [x], or there
    is no such element and [x] is the default [d]. *)
Definition first_text_or (t d : string) (e : Element) (x : string) : Prop :=
  match find_desc t e with
  | Some found => text found = Some x
  | None => x = d
  end.

Definition has_last_name (author_elem : Element) : bool :=
  match find_child "LastName" author_elem with Some _ => true | None => false end.

(** [name] is the display name of an author element that has a last name:
    fore name, blank, last name, or the last name alone; a name element
    without text is formatted as the word [None] next to a fore name. *)
Definition display_name (author_elem : Element) (name : string) : Prop :=
  exists lastname,
    find_child "LastName" author_elem = Some lastname
    /\ match find_child "ForeName" author_elem with
       | Some firstname =>
           name = format (text firstname) +:+ " " +:+ format (text lastname)
       | None => text lastname = Some name
       end.

(** An article with two authors, a collective name and a journal. *)
Definition authored_article : Element :=
  elem "PubmedArticle"
    [ leaf "PMID" "27182";
      elem "Journal" [ leaf "ISOAbbreviation" "Anal Chem" ];
      elem "AuthorList"
        [ elem "Author" [ leaf "LastName" "Curie"; leaf "ForeName" "Marie" ];
          elem "Author" [ leaf "CollectiveName" "The SRM Consortium" ];
          elem "Author" [ leaf "LastName" "Bohr" ] ] ].

Definition authored_document : Element :=
  elem "PubmedArticleSet" [authored_article; first_record].

(** ** For the properties of the handlers *)

Definition generate_query_keys : gset string :=
  {[ "pubmed_query"; "extracted_concepts"; "synonyms_used"; "explanation" ]}.

Definition classify_keys : gset string :=
  {[ "article_id"; "has_dataset"; "confidence"; "reason";
     "data_availability"; "labels"; "method_types" ]}.

(** The request [generate_query] sends for a key and a request. *)
Definition generate_query_request (api_key : option string)
    (request : QueryGenerationRequest.t) : Request :=
  chat_request api_key
    "You are an expert in scientific literature search and PubMed query optimization, specializing in metabolomics and analytical chemistry."
    (generate_query_prompt_head
     +:+ QueryGenerationRequest.natural_language_query request
     +:+ generate_query_prompt_tail).

Definition classify_request (api_key : option string)
    (request : ClassificationRequest.t) : Request :=
  chat_request api_key
    "You are a scientific literature analyst specializing in metabolomics research."
    (classify_prompt_head
     +:+ ClassificationRequest.abstract request
     +:+ classify_prompt_tail).

(** What a run of one of the two handlers can end in: no request and the
    status 500 when the key is missing; otherwise the one request [r], and
    a dictionary with the keys [keys] or the status 500. *)
Definition handler_outcome (api_key : option string) (r : Request)
    (keys : gset string) (sent : list Request)
    (run : list Request * outcome (gmap string value)) : Prop :=
  fst run = (if key_missing api_key then sent else sent ++ [r])
  /\ ((exists d, snd run = Val d /\ dom d = keys /\ key_missing api_key = false)
      \/ exists detail, snd run = Exc (HTTPException 500 detail)).

(** A reply of the chat endpoint with [content] as the message text. *)
Definition chat_reply (status : Z) (content : value) : Response.t :=
  Response.mk status "reply"
    (Val (VDict {[ "choices" :=
                     VList [ VDict {[ "message" :=
                                        VDict {[ "content" := content ]} ]} ] ]})).

(** A run in which the identifier search finds [31415] and the detail
    fetch returns the document of [pmc_article]; the chat endpoint answers
    with a content that has two of the keys. *)
Definition sample_esearch_reply : Response.t :=
  Response.mk 200 "esearch"
    (Val (VDict {[ "esearchresult" :=
                     VDict {[ "count" := VStr "1";
                              "idlist" := VList [VStr "31415"] ]} ]})).

Definition sample_runtime : Runtime :=
  {| send := fun r =>
       match r with
       | GET url _ =>
           if String.eqb url (eutils +:+ "/esearch.fcgi")
           then Val sample_esearch_reply
           else Val (Response.mk 200 pmc_document_text (Exc JSONDecodeError))
       | POST _ _ _ _ => Val (chat_reply 200 (VStr "content"))
       end;
     json_loads := fun _ =>
       Val (VDict {[ "pubmed_query" := VStr "HILIC";
                     "has_dataset" := VBool true ]});
     fromstring := fun _ => Ok pmc_document;
     str := fun _ => "error";
     number_truthy := fun _ => true;
     dict_keys := fun _ => [] |}.

(** A run in which every reply has status 503 and no JSON body. *)
Definition failing_runtime : Runtime :=
  {| send := fun _ => Val (Response.mk 503 "Service Unavailable" (Exc JSONDecodeError));
     json_loads := fun _ => Exc JSONDecodeError;
     fromstring := fun _ => Raise ParseError;
     str := fun e =>
       match e with
       | HTTPException _ detail => detail
       | _ => "error"
       end;
     number_truthy := fun _ => true;
     dict_keys := fun _ => [] |}.

(** * Properties *)

(** ** Facts about characters and strings *)

Ltac by_cases_on_ascii c :=
  destruct c as [[] [] [] [] [] [] [] []]; vm_compute; congruence.

Create HintDb chars discriminated.

Lemma space_not_paren c : isspace c = true -> is_paren c = false.
Proof. by_cases_on_ascii c. Qed.

Lemma space_not_comma c : isspace c = true -> is_comma c = false.
Proof. by_cases_on_ascii c. Qed.

Lemma space_not_alnum c : isspace c = true -> is_alnum c = false.
Proof. by_cases_on_ascii c. Qed.

Lemma alnum_not_paren c : is_alnum c = true -> is_paren c = false.
Proof. by_cases_on_ascii c. Qed.

Lemma lower_char_alnum c : is_alnum (lower_char c) = is_alnum c.
Proof. by_cases_on_ascii c. Qed.

Lemma upper_char_paren c : is_paren (upper_char c) = is_paren c.
Proof. by_cases_on_ascii c. Qed.

#[local] Hint Resolve space_not_paren space_not_comma space_not_alnum
  alnum_not_paren : chars.

Lemma app_cons c a b : String c a +:+ b = String c (a +:+ b).
Proof. reflexivity. Qed.

Lemma app_empty_l b : "" +:+ b = b.
Proof. reflexivity. Qed.

Lemma app_empty_r a : a +:+ "" = a.
Proof. induction a as [|c a IH]; [reflexivity|]. now rewrite app_cons, IH. Qed.

Lemma str_app_assoc a b c : (a +:+ b) +:+ c = a +:+ (b +:+ c).
Proof.
  induction a as [|x a IH]; [reflexivity|]. now rewrite !app_cons, IH.
Qed.

Lemma str_length_app a b : String.length (a +:+ b) = String.length a + String.length b.
Proof.
  induction a as [|x a IH]; [reflexivity|]. rewrite app_cons; simpl. now rewrite IH.
Qed.

Lemma keep_app p a b : keep p (a +:+ b) = keep p a +:+ keep p b.
Proof.
  induction a as [|x a IH]; [reflexivity|].
  rewrite app_cons; simpl. destruct (p x); now rewrite IH.
Qed.

Lemma all_chars_excludes (p q : ascii -> bool) s :
  (forall c, p c = true -> q c = false) ->
  all_chars p s = true -> has_char q s = false.
Proof.
  intros Hpq. induction s as [|c s IH]; simpl; [reflexivity|].
  intros [Hc Hs]%andb_true_iff. now rewrite (Hpq _ Hc), IH.
Qed.

Lemma keep_none p s : has_char p s = false -> keep p s = "".
Proof.
  induction s as [|c s IH]; simpl; [reflexivity|].
  intros [Hc Hs]%orb_false_iff. rewrite Hc. auto.
Qed.

Lemma lstrip_split s :
  exists w, s = w +:+ lstrip s /\ all_chars isspace w = true.
Proof.
  induction s as [|c s (w & Hs & Hw)]; simpl.
  - now exists "".
  - destruct (isspace c) eqn:Hc.
    + exists (String c w). rewrite app_cons, <- Hs. simpl. now rewrite Hc.
    + now exists "".
Qed.

Lemma rstrip_split s :
  exists w, s = rstrip s +:+ w /\ all_chars isspace w = true.
Proof.
  induction s as [|c s (w & Hs & Hw)]; simpl.
  - now exists "".
  - destruct (rstrip s) as [|d r] eqn:Hr.
    + destruct (isspace c) eqn:Hc.
      * exists (String c w). rewrite app_empty_l in *. subst s. simpl.
        now rewrite Hc.
      * exists w. rewrite app_cons. now rewrite <- Hs.
    + exists w. rewrite app_cons. now rewrite <- Hs.
Qed.

Lemma strip_all_space s : all_chars isspace s = true -> strip s = "".
Proof.
  unfold strip. induction s as [|c s IH]; simpl; [reflexivity|].
  intros [Hc Hs]%andb_true_iff. rewrite Hc. auto.
Qed.

Lemma keep_strip q s :
  (forall c, isspace c = true -> q c = false) -> keep q (strip s) = keep q s.
Proof.
  intros Hq. unfold strip.
  destruct (lstrip_split s) as (w1 & H1 & Hw1).
  destruct (rstrip_split (lstrip s)) as (w2 & H2 & Hw2).
  rewrite H1 at 2. rewrite H2 at 2. rewrite !keep_app.
  rewrite (keep_none q w1), (keep_none q w2) by eauto using all_chars_excludes.
  now rewrite app_empty_l, app_empty_r.
Qed.

Lemma split_no_separator sep s : has_char sep s = false -> split sep s = [s].
Proof.
  induction s as [|c s IH]; simpl; [reflexivity|].
  intros [Hc Hs]%orb_false_iff. now rewrite Hc, IH.
Qed.

(** ** Facts about the scanners *)

Lemma literal_i_split lit s m r :
  Re.literal_i lit s = Some (m, r) ->
  s = m +:+ r /\ lower m = lower lit.
Proof.
  revert s m r. induction lit as [|a lit IH]; intros s m r; simpl.
  - intros [= <- <-]. now split.
  - destruct s as [|c s]; [discriminate|].
    destruct (Ascii.eqb (lower_char a) (lower_char c)) eqn:Hac; [|discriminate].
    destruct (Re.literal_i lit s) as [[m' r']|] eqn:Hl; [|discriminate].
    intros [= <- <-]. destruct (IH _ _ _ Hl) as [-> Hm].
    apply Ascii.eqb_eq in Hac. split; [reflexivity|].
    unfold lower in *; simpl. now rewrite Hm, Hac.
Qed.

Lemma lower_eq_alnum a b :
  lower a = lower b -> all_chars is_alnum a = all_chars is_alnum b.
Proof.
  revert b. induction a as [|x a IH]; intros [|y b]; simpl; try discriminate;
    [reflexivity|].
  unfold lower; simpl. intros [= Hxy Hab].
  rewrite <- (lower_char_alnum x), <- (lower_char_alnum y), Hxy.
  f_equal. now apply IH.
Qed.

Lemma operator_word_split lit prev s m r :
  Re.operator_word lit prev s = Some (m, r) ->
  s = m +:+ r /\ lower m = lower lit.
Proof.
  unfold Re.operator_word.
  destruct (Re.literal_i lit s) as [[m' r']|] eqn:Hl; [|discriminate].
  destruct (Re.word_boundary _ _); [|discriminate].
  intros [= <- <-]. eauto using literal_i_split.
Qed.

Lemma operator_split prev s m r :
  Re.operator prev s = Some (m, r) ->
  s = m +:+ r /\ (lower m = "and" \/ lower m = "or").
Proof.
  unfold Re.operator. destruct (Re.word_boundary prev s); [|discriminate].
  destruct (Re.operator_word "AND" prev s) as [[m' r']|] eqn:Hand.
  - intros [= <- <-]. destruct (operator_word_split _ _ _ _ _ Hand); auto.
  - intros Hor. destruct (operator_word_split _ _ _ _ _ Hor); auto.
Qed.

Lemma operator_alnum prev s m r :
  Re.operator prev s = Some (m, r) ->
  nonempty m = true /\ all_chars is_alnum m = true.
Proof.
  intros (-> & [H | H])%operator_split.
  - split; [destruct m; [discriminate H | reflexivity]|].
    now rewrite (lower_eq_alnum m "and" H).
  - split; [destruct m; [discriminate H | reflexivity]|].
    now rewrite (lower_eq_alnum m "or" H).
Qed.

Lemma operator_not_alnum prev c s :
  is_alnum c = false -> Re.operator prev (String c s) = None.
Proof.
  intros Hc. destruct (Re.operator prev (String c s)) as [[m r]|] eqn:Hop;
    [|reflexivity].
  destruct (operator_split _ _ _ _ Hop) as [Hs _].
  destruct (operator_alnum _ _ _ _ Hop) as [Hne Hal].
  destruct m as [|x m]; [discriminate|]. rewrite app_cons in Hs.
  injection Hs as <- _. simpl in Hal. rewrite Hc in Hal. discriminate.
Qed.

Lemma search_operator_no_alnum prev s :
  has_char is_alnum s = false -> Re.search_operator prev s = false.
Proof.
  revert prev. induction s as [|c s IH]; intros prev; simpl; [reflexivity|].
  intros [Hc Hs]%orb_false_iff. rewrite (operator_not_alnum _ _ _ Hc). auto.
Qed.

(** The scanners on a few texts, with the lists [re.findall] gives. *)
Example findall_examples :
  Re.findall "(SRM 1950 OR SRM1950) AND HILIC"
    = ["("; "SRM"; "1950"; "OR"; "SRM1950"; ")"; "AND"; "HILIC"]
  /\ Re.findall "AND_ x" = ["AND"; "x"]
  /\ Re.findall "xAND" = ["xAND"]
  /\ Re.findall "AND1 or" = ["AND1"; "or"]
  /\ Re.findall "a,b;c-d" = ["a"; "b"; "c"; "d"]
  /\ Re.findall (String dquote "a b" +:+ String dquote "c" +:+ String dquote "(")
     = [String dquote "a b" +:+ String dquote ""; "c"; "("].
Proof. repeat apply conj; reflexivity. Qed.

Example search_operator_examples :
  Re.search_operator None "SRM 1950 or HILIC" = true
  /\ Re.search_operator None "sandy ORGANIC" = false
  /\ Re.search_operator None "AND_x" = false
  /\ Re.search_operator None "x-and-y" = true.
Proof. repeat apply conj; reflexivity. Qed.

(** ** The grammar detection, in words *)

Lemma alnum_is_word c : is_alnum c = true -> is_word c = true.
Proof. unfold is_word. now intros ->. Qed.

Lemma last_char_all p d w :
  nonempty w = true -> all_chars p w = true ->
  exists c, last_char d w = Some c /\ p c = true.
Proof.
  revert d. induction w as [|x w IH]; intros d; [discriminate|]. simpl.
  intros _ [Hx Hw]%andb_true_iff. destruct w as [|y w]; [eauto|].
  apply IH; auto.
Qed.

Lemma operator_word_letters w :
  lower w = "and" \/ lower w = "or" ->
  nonempty w = true /\ all_chars is_alnum w = true.
Proof.
  intros [H | H].
  - split; [destruct w; [discriminate H | reflexivity]|].
    now rewrite (lower_eq_alnum w "and" H).
  - split; [destruct w; [discriminate H | reflexivity]|].
    now rewrite (lower_eq_alnum w "or" H).
Qed.

Lemma word_boundary_before prev c s :
  is_word c = true ->
  Re.word_boundary prev (String c s) = negb (word_before prev).
Proof.
  intros Hc. unfold Re.word_boundary, word_before. rewrite Hc.
  now destruct prev as [x|]; [destruct (is_word x)|].
Qed.

Lemma word_boundary_after prev w r :
  nonempty w = true -> all_chars is_alnum w = true ->
  Re.word_boundary (last_char prev w) r = negb (startswith is_word r).
Proof.
  intros Hne Hal.
  destruct (last_char_all is_alnum prev w Hne Hal) as (c & -> & Hc).
  unfold Re.word_boundary. rewrite (alnum_is_word _ Hc).
  destruct r as [|x r]; [reflexivity|]. simpl. now destruct (is_word x).
Qed.

Lemma literal_i_complete lit w post :
  lower w = lower lit -> Re.literal_i lit (w +:+ post) = Some (w, post).
Proof.
  revert w. induction lit as [|a lit IH]; intros [|c w] H;
    try discriminate H.
  - reflexivity.
  - unfold lower in H. simpl in H. injection H as Hc Hw.
    rewrite app_cons. cbn [Re.literal_i]. rewrite Hc, Ascii.eqb_refl.
    now rewrite (IH w Hw).
Qed.

Lemma literal_i_other a lit w post :
  lower w <> "" ->
  String.get 0 (lower w) <> Some (lower_char a) ->
  Re.literal_i (String a lit) (w +:+ post) = None.
Proof.
  destruct w as [|c w]; [intros H; now contradiction H|].
  intros _ Hne. unfold lower in Hne. simpl in Hne.
  rewrite app_cons. cbn [Re.literal_i].
  destruct (Ascii.eqb_spec (lower_char a) (lower_char c)); [congruence|reflexivity].
Qed.

Lemma operator_sound prev s m r :
  Re.operator prev s = Some (m, r) ->
  s = m +:+ r /\ (lower m = "and" \/ lower m = "or")
  /\ word_before prev = false /\ startswith is_word r = false.
Proof.
  intros Hop. destruct (operator_split _ _ _ _ Hop) as [-> Hm].
  destruct (operator_word_letters _ Hm) as [Hne Hal]. repeat apply conj; auto.
  - unfold Re.operator in Hop.
    destruct m as [|c m]; [discriminate|]. rewrite app_cons in Hop.
    simpl in Hal. apply andb_true_iff in Hal as [Hc _].
    rewrite (word_boundary_before _ _ _ (alnum_is_word _ Hc)) in Hop.
    destruct (word_before prev); [discriminate | reflexivity].
  - unfold Re.operator, Re.operator_word in Hop.
    destruct (Re.word_boundary prev (m +:+ r)); [|discriminate].
    destruct Hm as [Hm | Hm].
    + rewrite (literal_i_complete "AND" m r Hm) in Hop.
      rewrite (word_boundary_after _ _ _ Hne Hal) in Hop.
      destruct (startswith is_word r); [|reflexivity].
      cbn [negb] in Hop.
      rewrite (literal_i_other "O" "R" m r) in Hop
        by (rewrite Hm; vm_compute; congruence).
      discriminate.
    + rewrite (literal_i_other "A" "ND" m r) in Hop
        by (rewrite Hm; vm_compute; congruence).
      rewrite (literal_i_complete "OR" m r Hm) in Hop.
      rewrite (word_boundary_after _ _ _ Hne Hal) in Hop.
      destruct (startswith is_word r); [discriminate | reflexivity].
Qed.

Lemma operator_complete prev w post :
  (lower w = "and" \/ lower w = "or") ->
  word_before prev = false -> startswith is_word post = false ->
  Re.operator prev (w +:+ post) = Some (w, post).
Proof.
  intros Hw Hprev Hpost. destruct (operator_word_letters _ Hw) as [Hne Hal].
  unfold Re.operator, Re.operator_word.
  assert (Re.word_boundary prev (w +:+ post) = true) as ->.
  { destruct w as [|c w]; [discriminate|]. rewrite app_cons.
    simpl in Hal. apply andb_true_iff in Hal as [Hc _].
    now rewrite (word_boundary_before _ _ _ (alnum_is_word _ Hc)), Hprev. }
  destruct Hw as [Hw | Hw].
  - rewrite (literal_i_complete "AND" _ post Hw).
    now rewrite (word_boundary_after _ _ _ Hne Hal), Hpost.
  - rewrite (literal_i_other "A" "ND" _ post)
      by (rewrite Hw; vm_compute; congruence).
    rewrite (literal_i_complete "OR" _ post Hw).
    now rewrite (word_boundary_after _ _ _ Hne Hal), Hpost.
Qed.

Lemma search_operator_spec prev s :
  Re.search_operator prev s = true <-> operator_as_whole_word prev s.
Proof.
  unfold operator_as_whole_word.
  revert prev. induction s as [|c s IH]; intros prev.
  - simpl. split; [discriminate|].
    intros (pre & w & post & H & Hw & _).
    destruct (operator_word_letters _ Hw) as [Hne _].
    destruct pre; [|discriminate]. destruct w; discriminate.
  - cbn [Re.search_operator].
    destruct (Re.operator prev (String c s)) as [[m r]|] eqn:Hop.
    + split; [intros _|reflexivity].
      destruct (operator_sound _ _ _ _ Hop) as (E & Hm & Hp & Hr).
      exists "", m, r. now rewrite app_empty_l.
    + rewrite IH. split.
      * intros (pre & w & post & -> & Hw & Hp & Hr).
        exists (String c pre), w, post. now rewrite app_cons.
      * intros (pre & w & post & E & Hw & Hp & Hr).
        destruct pre as [|x pre].
        -- rewrite app_empty_l in E. rewrite E in Hop.
           rewrite operator_complete in Hop by assumption. discriminate.
        -- rewrite app_cons in E. injection E as <- ->.
           now exists pre, w, post.
Qed.

(** X17: an input takes the complex branch exactly when it has a
    parenthesis, or [AND] or [OR] in any case as a whole word, with no word
    character right before it or right behind it. *)
Lemma is_complex_spec keywords :
  is_complex keywords = true
  <-> has_char is_paren keywords = true \/ operator_as_whole_word None keywords.
Proof.
  unfold is_complex. now rewrite orb_true_iff, search_operator_spec.
Qed.

(** ** The field tag *)

Lemma field_tag_of_other (search_fields : string) :
  in_list search_fields ["title"; "abstract"; "title_abstract"] = false ->
  field_tag_of search_fields = "".
Proof.
  unfold in_list, field_tag_of; simpl.
  destruct (String.eqb search_fields "title"),
           (String.eqb search_fields "abstract"),
           (String.eqb search_fields "title_abstract"); simpl; congruence.
Qed.

(** C10: a [search_fields] value other than [title], [abstract] and
    [title_abstract] selects the empty field tag, so the query is the one
    built for [search_fields = all]. *)
Theorem unrecognised_fields_as_all (keywords search_mode search_fields : string) :
  in_list search_fields ["title"; "abstract"; "title_abstract"] = false ->
  build_pubmed_query keywords search_mode search_fields
  = build_pubmed_query keywords search_mode "all".
Proof.
  intros H. unfold build_pubmed_query.
  rewrite (field_tag_of_other _ H). reflexivity.
Qed.

Lemma unrecognised_fields_as_all_witness :
  in_list "fulltext" ["title"; "abstract"; "title_abstract"] = false
  /\ build_pubmed_query "SRM 1950, HILIC" "OR" "fulltext"
     = build_pubmed_query "SRM 1950, HILIC" "OR" "all".
Proof.
  split; [reflexivity|].
  apply (unrecognised_fields_as_all "SRM 1950, HILIC" "OR" "fulltext").
  reflexivity.
Defined.

(** ** The complex grammar on the example of the specification *)

(** C2: the parenthesised example compiles to the seven tokens of the
    specification, joined by single spaces. *)
Theorem build_complex_example :
  build_pubmed_query "(SRM 1950 OR SRM1950) AND HILIC" "AND" "title"
  = join " " [ "("; String dquote "SRM 1950" +:+ String dquote "[Title]"; "OR";
               "SRM1950[Title]"; ")"; "AND"; "HILIC[Title]" ]
  /\ build_pubmed_query "(SRM 1950 OR SRM1950) AND HILIC" "AND" "title"
     = "( " +:+ String dquote "SRM 1950"
       +:+ String dquote "[Title] OR SRM1950[Title] ) AND HILIC[Title]".
Proof. split; vm_compute; reflexivity. Qed.

(** ** Empty and whitespace-only keywords *)

(** C5: keywords made of whitespace only (the empty string included) give
    the empty query, for every mode and every field scope. *)
Theorem blank_keywords_give_empty_query (keywords search_mode search_fields : string) :
  all_chars isspace keywords = true ->
  build_pubmed_query keywords search_mode search_fields = "".
Proof.
  intros Hws. unfold build_pubmed_query, is_complex.
  rewrite (all_chars_excludes isspace is_paren) by auto with chars.
  rewrite search_operator_no_alnum
    by (apply (all_chars_excludes isspace); auto with chars).
  simpl orb. cbv iota.
  rewrite split_no_separator
    by (apply (all_chars_excludes isspace); auto with chars).
  simpl map. rewrite (strip_all_space _ Hws). reflexivity.
Qed.

Lemma blank_keywords_give_empty_query_witness :
  all_chars isspace "   " = true
  /\ build_pubmed_query "   " "OR" "all" = ""
  /\ build_pubmed_query "" "AND" "all" = "".
Proof.
  split; [reflexivity|]. split.
  - apply (blank_keywords_give_empty_query "   " "OR" "all"). reflexivity.
  - apply (blank_keywords_give_empty_query "" "AND" "all"). reflexivity.
Defined.

(** ** The simple grammar *)

Lemma tag_term_spec field_tag term : tag_term field_tag term = spec_tagged field_tag term.
Proof.
  unfold tag_term, spec_tagged. destruct (has_char is_blank term); [|reflexivity].
  now rewrite !app_cons, !app_empty_l, !str_app_assoc, !app_cons, app_empty_l.
Qed.

Lemma spec_tagged_no_blank field_tag term :
  has_char is_blank term = false -> spec_tagged field_tag term = term +:+ field_tag.
Proof. intros H. unfold spec_tagged. now rewrite H. Qed.

(** C3, as the claim words it, fails: a lone comma is a simple-grammar input
    with no non-empty piece, and the query is the comma, not the empty
    join. *)
Lemma simple_query_lone_comma :
  is_complex "," = false
  /\ spec_simple_terms "," = []
  /\ build_pubmed_query "," "AND" "all" = ","
  /\ build_pubmed_query "," "AND" "all" <> spec_simple_query "," "AND" "all".
Proof. repeat split; try reflexivity. vm_compute. discriminate. Qed.

Lemma ascii_upper_exact s :
  all_chars (fun c => (code c <? 128)%N) s = true -> upper_exact s = true.
Proof.
  assert (forall c, (code c <? 128)%N = true -> upper_exact_char c = true) as Hc
    by (intros c; by_cases_on_ascii c).
  unfold upper_exact. induction s as [|c s IH]; [reflexivity|]. simpl.
  intros [H1 H2]%andb_true_iff. now rewrite (Hc _ H1), IH.
Qed.

(** C3 amended: on a simple-grammar input with a non-empty piece the query
    is the one the specification words, with the upper case of the mode
    between the terms (for a mode on which [upper] is [str.upper]); when
    every piece is empty the whole trimmed input is the one term, and the
    empty string if that is empty; with mode [AND] and no space in any term
    the query is the terms with their tags joined by [ AND ]. *)
Theorem simple_query_as_specified (keywords search_mode search_fields : string) :
  is_complex keywords = false ->
  (spec_simple_terms keywords <> [] ->
   upper_exact search_mode = true ->
     build_pubmed_query keywords search_mode search_fields
     = spec_simple_query keywords search_mode search_fields)
  /\ (spec_simple_terms keywords = [] ->
       build_pubmed_query keywords search_mode search_fields
       = if nonempty (strip keywords)
         then spec_tagged (field_tag_of search_fields) (strip keywords)
         else "")
  /\ (spec_simple_terms keywords <> [] ->
       Forall (fun term => has_char is_blank term = false) (spec_simple_terms keywords) ->
       build_pubmed_query keywords "AND" search_fields
       = join " AND " (map (fun term => term +:+ field_tag_of search_fields)
                           (spec_simple_terms keywords))).
Proof.
  intros Hc.
  assert (forall mode, spec_simple_terms keywords <> [] ->
            build_pubmed_query keywords mode search_fields
            = spec_simple_query keywords mode search_fields) as Hmain.
  { intros mode Hne. unfold build_pubmed_query, spec_simple_query. rewrite Hc.
    fold (spec_simple_terms keywords).
    destruct (spec_simple_terms keywords) as [|t terms] eqn:Hterms; [congruence|].
    cbn [length Nat.eqb orb].
    replace (_ && negb (nonempty (hd EmptyString (t :: terms)))) with false.
    - f_equal. apply map_ext. intros; apply tag_term_spec.
    - symmetry. apply andb_false_iff. right. apply negb_false_iff.
      assert (In t (spec_simple_terms keywords)) as Hin by (rewrite Hterms; now left).
      unfold spec_simple_terms in Hin. apply filter_In in Hin. tauto. }
  split; [intros Hne _; now apply Hmain|]. split.
  - intros Hnil. unfold build_pubmed_query. rewrite Hc.
    fold (spec_simple_terms keywords). rewrite Hnil. cbn [length Nat.eqb orb andb hd].
    destruct (nonempty (strip keywords)); [|reflexivity].
    cbn [negb map join]. apply tag_term_spec.
  - intros Hne Hblank. rewrite (Hmain "AND" Hne). unfold spec_simple_query.
    change (" " +:+ upper "AND" +:+ " ") with " AND ". f_equal.
    apply map_ext_in. intros term Hin. apply spec_tagged_no_blank.
    rewrite List.Forall_forall in Hblank. auto.
Qed.

Lemma simple_query_as_specified_witness :
  is_complex "SRM 1950, HILIC" = false
  /\ spec_simple_terms "SRM 1950, HILIC" = ["SRM 1950"; "HILIC"]
  /\ upper_exact "AND" = true
  /\ build_pubmed_query "SRM 1950, HILIC" "AND" "all"
     = String dquote "SRM 1950" +:+ String dquote " AND HILIC".
Proof.
  split; [reflexivity|]. split; [reflexivity|]. split; [reflexivity|].
  destruct (simple_query_as_specified "SRM 1950, HILIC" "AND" "all" eq_refl)
    as [H _].
  rewrite H; [reflexivity | discriminate | reflexivity].
Defined.

(** ** The tokens of the complex grammar *)

Lemma paren_char c : is_paren c = true -> String c "" = "(" \/ String c "" = ")".
Proof.
  destruct c as [[] [] [] [] [] [] [] []]; vm_compute; intros; try discriminate; auto.
Qed.

Lemma span_split p s w r :
  span p s = (w, r) ->
  s = w +:+ r /\ all_chars p w = true /\ startswith p r = false.
Proof.
  revert w r. induction s as [|c s IH]; intros w r; simpl.
  - intros [= <- <-]. auto.
  - destruct (p c) eqn:Hc.
    + destruct (span p s) as [w' r']. intros [= <- <-].
      destruct (IH _ _ eq_refl) as (-> & Hw & Hr).
      rewrite app_cons; simpl. now rewrite Hc.
    + intros [= <- <-]. simpl. auto.
Qed.

Lemma endswith_app_char p a c : endswith p (a +:+ String c "") = p c.
Proof.
  induction a as [|x a IH]; [reflexivity|].
  rewrite app_cons. simpl. rewrite IH.
  destruct (a +:+ String c "") eqn:E; [|reflexivity].
  destruct a; discriminate.
Qed.

Lemma quoted_split s m r :
  Re.quoted s = Some (m, r) ->
  s = m +:+ r /\ startswith is_dquote m = true /\ endswith is_dquote m = true.
Proof.
  unfold Re.quoted. destruct s as [|q s]; [discriminate|].
  destruct (is_dquote q) eqn:Hq; [|discriminate].
  destruct (span _ s) as [[|b body] [|q' r']] eqn:Hspan; try discriminate.
  intros [= <- <-].
  destruct (span_split _ _ _ _ Hspan) as (-> & _ & Hq'). simpl in Hq'.
  apply negb_false_iff in Hq'.
  split; [|split].
  - rewrite !app_cons, str_app_assoc. reflexivity.
  - exact Hq.
  - change (String q (String b body +:+ String q' ""))
      with (String q (String b body) +:+ String q' "").
    now rewrite endswith_app_char.
Qed.

Lemma paren_split s m r :
  Re.paren s = Some (m, r) -> s = m +:+ r /\ (m = "(" \/ m = ")").
Proof.
  unfold Re.paren. destruct s as [|c s]; [discriminate|].
  destruct (is_paren c) eqn:Hc; [|discriminate].
  intros [= <- <-]. split; [reflexivity|]. now apply paren_char.
Qed.

Lemma word_split s m r :
  Re.word s = Some (m, r) ->
  s = m +:+ r /\ nonempty m = true /\ all_chars is_alnum m = true.
Proof.
  unfold Re.word. destruct (span is_alnum s) as [[|c w] r'] eqn:Hspan;
    [discriminate|].
  intros [= <- <-]. destruct (span_split _ _ _ _ Hspan) as (-> & Hw & _). auto.
Qed.

Lemma token_split prev s m r :
  Re.token prev s = Some (m, r) ->
  s = m +:+ r /\ nonempty m = true /\ token_shape m.
Proof.
  unfold Re.token, token_shape.
  destruct (Re.quoted s) as [[m1 r1]|] eqn:Hq.
  { intros [= <- <-]. destruct (quoted_split _ _ _ Hq) as (-> & Hs & He).
    repeat split; auto. destruct m1; [discriminate Hs | reflexivity]. }
  destruct (Re.paren s) as [[m2 r2]|] eqn:Hp.
  { intros [= <- <-]. destruct (paren_split _ _ _ Hp) as (-> & [-> | ->]);
      repeat split; auto. }
  destruct (Re.operator prev s) as [[m3 r3]|] eqn:Ho.
  { intros [= <- <-]. destruct (operator_split _ _ _ _ Ho) as [-> _].
    destruct (operator_alnum _ _ _ _ Ho) as [Hne Hal]. repeat split; auto 6. }
  intros Hw. destruct (word_split _ _ _ Hw) as (-> & Hne & Hal).
  repeat split; auto 6.
Qed.

Lemma token_none_not_paren prev c s :
  Re.token prev (String c s) = None -> is_paren c = false.
Proof.
  unfold Re.token. destruct (Re.quoted _); [discriminate|].
  unfold Re.paren. destruct (is_paren c); [discriminate | reflexivity].
Qed.

Lemma cat_app l1 l2 : cat (l1 ++ l2) = cat l1 +:+ cat l2.
Proof.
  induction l1 as [|x l1 IH]; [reflexivity|]. simpl. now rewrite IH, str_app_assoc.
Qed.

Lemma nonempty_length m : nonempty m = true -> 0 < String.length m.
Proof. destruct m; [discriminate|]. simpl. lia. Qed.

(** No parenthesis is lost by the tokenizer, and every token has one of
    the shapes above. *)
Lemma findall_from_parens fuel prev s :
  String.length s <= fuel ->
  keep is_paren (cat (Re.findall_from fuel prev s)) = keep is_paren s
  /\ Forall token_shape (Re.findall_from fuel prev s).
Proof.
  revert prev s. induction fuel as [|fuel IH]; intros prev s Hlen.
  - destruct s; [|simpl in Hlen; lia]. simpl. auto.
  - destruct s as [|c s]; [simpl; auto|].
    cbn [Re.findall_from].
    destruct (Re.token prev (String c s)) as [[m r]|] eqn:Ht.
    + destruct (token_split _ _ _ _ Ht) as (E & Hne & Hshape).
      assert (String.length r <= fuel) as Hr.
      { apply (f_equal String.length) in E. rewrite str_length_app in E.
        apply nonempty_length in Hne. simpl in *. lia. }
      destruct (IH (last_char prev m) r Hr) as [IHp IHs].
      split; [|now constructor].
      rewrite E. cbn [cat fold_right]. fold (cat (Re.findall_from fuel (last_char prev m) r)).
      now rewrite !keep_app, IHp.
    + simpl in Hlen. destruct (IH (Some c) s ltac:(lia)) as [IHp IHs].
      split; [|assumption].
      simpl. now rewrite (token_none_not_paren _ _ _ Ht).
Qed.

(** Any fuel from the length of the text on gives the same tokens. *)
Lemma findall_from_fuel fuel1 fuel2 prev s :
  String.length s <= fuel1 -> String.length s <= fuel2 ->
  Re.findall_from fuel1 prev s = Re.findall_from fuel2 prev s.
Proof.
  revert fuel2 prev s.
  induction fuel1 as [|fuel1 IH]; intros fuel2 prev s H1 H2.
  - destruct s; [|simpl in H1; lia]. destruct fuel2; reflexivity.
  - destruct s as [|c s]; [destruct fuel2; reflexivity|].
    destruct fuel2 as [|fuel2]; [simpl in H2; lia|].
    cbn [Re.findall_from]. simpl in H1, H2.
    destruct (Re.token prev (String c s)) as [[m r]|] eqn:Ht.
    + destruct (token_split _ _ _ _ Ht) as (E & Hne & _).
      assert (String.length r <= String.length s) as Hr.
      { apply (f_equal String.length) in E. rewrite str_length_app in E.
        apply nonempty_length in Hne. simpl in *. lia. }
      f_equal. apply IH; lia.
    + apply IH; lia.
Qed.

(** ** The walk over the tokens *)

Lemma paren_upper_fixed c : is_paren c = true -> upper_char c = c.
Proof. by_cases_on_ascii c. Qed.

Lemma keep_paren_upper s : keep is_paren (upper s) = keep is_paren s.
Proof.
  unfold upper. induction s as [|c s IH]; [reflexivity|]. simpl.
  rewrite upper_char_paren. destruct (is_paren c) eqn:Hc; rewrite IH;
    [now rewrite paren_upper_fixed|reflexivity].
Qed.

Lemma alnum_no_paren s : all_chars is_alnum s = true -> keep is_paren s = "".
Proof.
  intros H. apply keep_none. eauto using all_chars_excludes with chars.
Qed.

Lemma parens_of_app l1 l2 : parens_of (l1 ++ l2) = parens_of l1 +:+ parens_of l2.
Proof. unfold parens_of. now rewrite map_app, cat_app. Qed.

Lemma keep_cat p l : keep p (cat l) = cat (map (keep p) l).
Proof.
  induction l as [|x l IH]; [reflexivity|]. simpl. now rewrite keep_app, IH.
Qed.

Lemma keep_join p sep l :
  keep p sep = "" -> keep p (join sep l) = cat (map (keep p) l).
Proof.
  intros Hsep. induction l as [|x [|y l] IH]; [reflexivity| |].
  - simpl. now rewrite app_empty_r.
  - change (join sep (x :: y :: l)) with (x +:+ sep +:+ join sep (y :: l)).
    rewrite !keep_app, Hsep, app_empty_l, IH. reflexivity.
Qed.

(** A token that is neither an operator, a parenthesis nor a quoted phrase
    is a run of alphanumerics. *)
Lemma bare_word_alnum t :
  token_shape t ->
  in_list (upper t) operators_and_parens = false ->
  startswith is_dquote t && endswith is_dquote t = false ->
  all_chars is_alnum t = true.
Proof.
  intros [[Hs He] | [-> | [-> | [_ H]]]] Hop Hq; try discriminate; [|exact H].
  rewrite Hs, He in Hq. discriminate.
Qed.

Lemma phrase_rest_split tokens more rest :
  phrase_rest tokens = (more, rest) ->
  tokens = more ++ rest
  /\ Forall (fun t => in_list (upper t) operators_and_parens = false
                      /\ startswith is_dquote t = false) more.
Proof.
  revert more rest. induction tokens as [|t tokens IH]; intros more rest.
  - intros [= <- <-]. auto.
  - cbn [phrase_rest].
    destruct (in_list (upper t) operators_and_parens) eqn:Hop.
    { intros [= <- <-]. auto. }
    destruct (startswith is_dquote t) eqn:Hq.
    { intros [= <- <-]. auto. }
    destruct (phrase_rest tokens) as [more' rest'].
    intros [= <- <-]. destruct (IH _ _ eq_refl) as [-> Hmore].
    split; [reflexivity|]. constructor; auto.
Qed.

Lemma bare_words_no_paren more :
  Forall token_shape more ->
  Forall (fun t => in_list (upper t) operators_and_parens = false
                   /\ startswith is_dquote t = false) more ->
  Forall (fun t => all_chars is_alnum t = true) more.
Proof.
  induction 1 as [|t more Ht Hmore IH]; intros Hplain; [constructor|].
  inversion Hplain as [|? ? [Hop Hq] Hrest]; subst. constructor; auto.
  apply bare_word_alnum; auto. now rewrite Hq.
Qed.

Lemma parens_of_alnum l :
  Forall (fun t => all_chars is_alnum t = true) l -> parens_of l = "".
Proof.
  induction 1 as [|x l Hx Hl IH]; [reflexivity|].
  unfold parens_of in *. simpl. now rewrite (alnum_no_paren _ Hx), IH.
Qed.

Lemma process_tokens_parens fuel field_tag tokens :
  keep is_paren field_tag = "" ->
  Forall token_shape tokens ->
  length tokens <= fuel ->
  parens_of (process_tokens fuel field_tag tokens) = parens_of tokens.
Proof.
  intros Htag. revert tokens.
  induction fuel as [|fuel IH]; intros tokens Hshape Hlen.
  - destruct tokens; [reflexivity | simpl in Hlen; lia].
  - destruct tokens as [|t tokens]; [reflexivity|].
    inversion Hshape as [|? ? Ht Hts]; subst. simpl in Hlen.
    cbn [process_tokens].
    destruct (in_list (upper t) operators_and_parens) eqn:Hop.
    { unfold parens_of in *. cbn [map cat fold_right].
      fold (cat (map (keep is_paren) (process_tokens fuel field_tag tokens))).
      fold (cat (map (keep is_paren) tokens)).
      rewrite IH by (auto; lia). f_equal.
      destruct (in_list (upper t) operators) eqn:Hopr; [|reflexivity].
      apply keep_paren_upper. }
    destruct (startswith is_dquote t && endswith is_dquote t) eqn:Hq.
    { unfold parens_of in *. cbn [map cat fold_right].
      fold (cat (map (keep is_paren) (process_tokens fuel field_tag tokens))).
      fold (cat (map (keep is_paren) tokens)).
      rewrite IH by (auto; lia).
      now rewrite keep_app, Htag, app_empty_r. }
    destruct (phrase_rest tokens) as [more rest] eqn:Hpr.
    destruct (phrase_rest_split _ _ _ Hpr) as [-> Hplain].
    apply Forall_app in Hts as [Hmore Hrest].
    rewrite length_app in Hlen.
    assert (Forall (fun t => all_chars is_alnum t = true) (t :: more)) as Hal.
    { constructor; [now apply bare_word_alnum | now apply bare_words_no_paren]. }
    change (t :: more ++ rest) with ((t :: more) ++ rest).
    rewrite parens_of_app, (parens_of_alnum _ Hal), app_empty_l.
    change (parens_of (?x :: ?l)) with (keep is_paren x +:+ parens_of l).
    rewrite IH by (auto; lia).
    assert (keep is_paren (join " " (t :: more)) = "") as Hphrase.
    { rewrite keep_join by reflexivity. exact (parens_of_alnum _ Hal). }
    destruct (1 <? length (t :: more)).
    + rewrite app_cons. cbn [keep]. change (is_paren dquote) with false. cbv iota.
      rewrite keep_app, Hphrase, app_empty_l. cbn [keep].
      change (is_paren dquote) with false. cbv iota. now rewrite Htag.
    + now rewrite keep_app, Hphrase, Htag.
Qed.

(** Any fuel from the number of tokens on gives the same result. *)
Lemma process_tokens_fuel fuel1 fuel2 field_tag tokens :
  length tokens <= fuel1 -> length tokens <= fuel2 ->
  process_tokens fuel1 field_tag tokens = process_tokens fuel2 field_tag tokens.
Proof.
  revert fuel2 tokens.
  induction fuel1 as [|fuel1 IH]; intros fuel2 tokens H1 H2.
  - destruct tokens; [|simpl in H1; lia]. destruct fuel2; reflexivity.
  - destruct tokens as [|t tokens]; [destruct fuel2; reflexivity|].
    destruct fuel2 as [|fuel2]; [simpl in H2; lia|].
    cbn [process_tokens]. simpl in H1, H2.
    destruct (in_list (upper t) operators_and_parens).
    { f_equal. apply IH; lia. }
    destruct (startswith is_dquote t && endswith is_dquote t).
    { f_equal. apply IH; lia. }
    destruct (phrase_rest tokens) as [more rest] eqn:Hpr.
    destruct (phrase_rest_split _ _ _ Hpr) as [-> _].
    rewrite length_app in H1, H2. f_equal. apply IH; lia.
Qed.

(** The loops over the indices do what the functions of the remaining
    tokens say. *)
Lemma phrase_loop_rest fuel tokens phrase_tokens j :
  length tokens - j <= fuel ->
  phrase_loop fuel tokens phrase_tokens j
  = (phrase_tokens ++ fst (phrase_rest (drop j tokens)),
     j + length (fst (phrase_rest (drop j tokens))))
  /\ snd (phrase_rest (drop j tokens))
     = drop (j + length (fst (phrase_rest (drop j tokens)))) tokens.
Proof.
  assert (forall pt k, length tokens <= k ->
            (pt, k) = (pt ++ fst (phrase_rest (drop k tokens)),
                       k + length (fst (phrase_rest (drop k tokens))))
            /\ snd (phrase_rest (drop k tokens))
               = drop (k + length (fst (phrase_rest (drop k tokens)))) tokens)
    as Hend.
  { intros pt k Hk. rewrite (drop_ge tokens k Hk). simpl.
    now rewrite app_nil_r, Nat.add_0_r, (drop_ge tokens k Hk). }
  revert phrase_tokens j.
  induction fuel as [|fuel IH]; intros phrase_tokens j Hfuel.
  - apply Hend. lia.
  - cbn [phrase_loop]. destruct (tokens !! j) as [t|] eqn:Ht.
    + rewrite (drop_S _ _ _ Ht). cbn [phrase_rest].
      destruct (in_list (upper t) operators_and_parens).
      { simpl. now rewrite app_nil_r, !Nat.add_0_r, (drop_S _ _ _ Ht). }
      destruct (startswith is_dquote t).
      { simpl. now rewrite app_nil_r, !Nat.add_0_r, (drop_S _ _ _ Ht). }
      destruct (IH (phrase_tokens ++ [t]) (j + 1) ltac:(lia)) as [IH1 IH2].
      rewrite Nat.add_1_r in IH1, IH2.
      destruct (phrase_rest (drop (S j) tokens)) as [more rest].
      simpl in *. rewrite Nat.add_1_r, IH1, <- app_assoc.
      split; [do 2 f_equal; lia|]. rewrite IH2. f_equal. lia.
    + apply Hend. now apply lookup_ge_None.
Qed.

Lemma token_loop_process fuel field_tag tokens result_tokens i :
  length tokens - i <= fuel ->
  token_loop fuel field_tag tokens result_tokens i
  = result_tokens ++ process_tokens fuel field_tag (drop i tokens).
Proof.
  revert result_tokens i.
  induction fuel as [|fuel IH]; intros result_tokens i Hfuel.
  - simpl. now rewrite app_nil_r.
  - cbn [token_loop]. destruct (tokens !! i) as [t|] eqn:Ht.
    + rewrite (drop_S _ _ _ Ht). cbn [process_tokens].
      destruct (in_list (upper t) operators_and_parens).
      { rewrite IH by lia. now rewrite <- app_assoc, Nat.add_1_r. }
      destruct (startswith is_dquote t && endswith is_dquote t).
      { rewrite IH by lia. now rewrite <- app_assoc, Nat.add_1_r. }
      destruct (phrase_loop_rest (length tokens) tokens [t] (i + 1) ltac:(lia))
        as [-> Hrest].
      rewrite Nat.add_1_r in *.
      destruct (phrase_rest (drop (S i) tokens)) as [more rest].
      simpl in Hrest. cbn [fst snd app]. rewrite IH by (simpl; lia).
      now rewrite <- app_assoc, Hrest.
    + apply lookup_ge_None in Ht. rewrite (drop_ge tokens i Ht).
      simpl. now rewrite app_nil_r.
Qed.

Lemma token_loop_all field_tag tokens :
  token_loop (length tokens) field_tag tokens [] 0
  = process_tokens (length tokens) field_tag tokens.
Proof. rewrite token_loop_process by lia. reflexivity. Qed.

(** Any fuel from the number of tokens on gives the same result. *)
Lemma token_loop_enough fuel field_tag tokens :
  length tokens <= fuel ->
  token_loop fuel field_tag tokens [] 0
  = token_loop (length tokens) field_tag tokens [] 0.
Proof.
  intros H. rewrite !token_loop_process by lia.
  rewrite drop_0. cbn [app]. now apply process_tokens_fuel.
Qed.

Lemma field_tag_no_paren search_fields :
  keep is_paren (field_tag_of search_fields) = "".
Proof.
  unfold field_tag_of.
  destruct (String.eqb search_fields "title"); [reflexivity|].
  destruct (String.eqb search_fields "abstract"); [reflexivity|].
  destruct (String.eqb search_fields "title_abstract"); reflexivity.
Qed.

(** C4: on a complex-grammar input the parentheses of the query, read from
    left to right, are exactly the parentheses of the input: each one is
    kept as it is and none changes place. *)
Theorem complex_query_keeps_parentheses (keywords search_mode search_fields : string) :
  is_complex keywords = true ->
  keep is_paren (build_pubmed_query keywords search_mode search_fields)
  = keep is_paren keywords.
Proof.
  intros Hc. unfold build_pubmed_query. rewrite Hc.
  rewrite token_loop_all, keep_join by reflexivity.
  fold (parens_of (process_tokens (length (Re.findall (strip keywords)))
                                  (field_tag_of search_fields)
                                  (Re.findall (strip keywords)))).
  unfold Re.findall.
  destruct (findall_from_parens (String.length (strip keywords)) None
              (strip keywords) (Nat.le_refl _)) as [Hp Hs].
  rewrite process_tokens_parens by auto using field_tag_no_paren.
  unfold parens_of. rewrite <- keep_cat, Hp.
  apply keep_strip. auto with chars.
Qed.

Lemma complex_query_keeps_parentheses_witness :
  is_complex "((a OR b) AND c" = true
  /\ keep is_paren (build_pubmed_query "((a OR b) AND c" "AND" "abstract") = "(()".
Proof.
  split; [reflexivity|].
  rewrite (complex_query_keeps_parentheses "((a OR b) AND c" "AND" "abstract");
    reflexivity.
Defined.

(** ** Substrings *)

Lemma prefix_split n h :
  String.prefix n h = true <-> exists post, h = n +:+ post.
Proof.
  revert h. induction n as [|a n IH]; intros h.
  - destruct h; simpl; (split; [intros _; eexists; reflexivity | reflexivity]).
  - destruct h as [|b h]; simpl.
    + split; [discriminate | intros [post H]; discriminate].
    + destruct (ascii_dec a b) as [->|Hab].
      * rewrite IH. split; intros [post H]; exists post.
        -- now rewrite app_cons, H.
        -- rewrite app_cons in H. now injection H.
      * split; [discriminate|]. intros [post H]. rewrite app_cons in H.
        injection H as H _. congruence.
Qed.

Lemma contains_split n h :
  contains n h = true <-> exists pre post, h = pre +:+ n +:+ post.
Proof.
  induction h as [|c h IH].
  - cbn [contains]. rewrite orb_false_r, prefix_split. split.
    + intros [post H]. now exists "", post.
    + intros (pre & post & H). destruct pre; [now exists post|discriminate].
  - cbn [contains]. rewrite orb_true_iff, prefix_split, IH. split.
    + intros [[post H] | (pre & post & H)].
      * now exists "", post.
      * exists (String c pre), post. now rewrite app_cons, H.
    + intros (pre & post & H). destruct pre as [|x pre].
      * left. now exists post.
      * right. rewrite app_cons in H. injection H as _ H. now exists pre, post.
Qed.

Lemma smap_app f a b : smap f (a +:+ b) = smap f a +:+ smap f b.
Proof.
  induction a as [|x a IH]; [reflexivity|]. rewrite !app_cons; simpl.
  now rewrite IH.
Qed.

Lemma smap_app_inv f s a b :
  smap f s = a +:+ b ->
  exists a' b', s = a' +:+ b' /\ smap f a' = a /\ smap f b' = b.
Proof.
  revert s. induction a as [|x a IH]; intros s H.
  - now exists "", s.
  - destruct s as [|c s]; [discriminate|]. rewrite app_cons in H. simpl in H.
    injection H as Hx H. destruct (IH _ H) as (a' & b' & -> & Ha & Hb).
    exists (String c a'), b'. simpl. now rewrite Hx, Ha.
Qed.

Lemma nonempty_app_r a b : nonempty b = true -> nonempty (a +:+ b) = true.
Proof. destruct a; [now rewrite app_empty_l | reflexivity]. Qed.

Lemma nonempty_app_l a b : nonempty a = true -> nonempty (a +:+ b) = true.
Proof. destruct a; [discriminate | reflexivity]. Qed.

(** ** Open access *)

Lemma In_findall_desc t e x :
  In x (findall_desc t e) <-> In x (descendants e) /\ tag x = t.
Proof.
  unfold findall_desc, has_tag. rewrite filter_In, String.eqb_eq. tauto.
Qed.

Lemma head_filter_Some {A} (f : A -> bool) (l : list A) :
  (exists y, head (List.filter f l) = Some y) <-> exists x, In x l /\ f x = true.
Proof.
  induction l as [|x l IH]; simpl.
  - split; [intros [y H]; discriminate | intros (x & [] & _)].
  - destruct (f x) eqn:Hx.
    + split; [intros _; exists x; auto | intros _; eexists; reflexivity].
    + rewrite IH. split; intros (y & Hy & Hf); [exists y; auto|].
      destruct Hy as [-> | Hy]; [congruence | exists y; auto].
Qed.

Lemma marks_open_access_spec pt :
  marks_open_access pt = true
  <-> exists t, text pt = Some t /\ contains_ignoring_case "open access" t.
Proof.
  unfold marks_open_access, contains_ignoring_case.
  destruct (text pt) as [t|]; [|split; [discriminate | intros (t & H & _); discriminate]].
  rewrite andb_true_iff, contains_split. split.
  - intros (_ & pre & post & H). exists t. split; [reflexivity|].
    apply smap_app_inv in H as (pre' & rest & -> & _ & H).
    apply smap_app_inv in H as (mid & post' & -> & Hmid & _).
    now exists pre', mid, post'.
  - intros (t' & [= <-] & pre & mid & post & -> & Hmid). split.
    + apply nonempty_app_r, nonempty_app_l. destruct mid; [discriminate|reflexivity].
    + exists (lower pre), (lower post). unfold lower in *.
      now rewrite !smap_app, Hmid.
Qed.

Lemma fold_marks (l : list Element) (b : bool) :
  fold_left (fun acc pt => if marks_open_access pt then true else acc) l b
  = b || existsb marks_open_access l.
Proof.
  revert b. induction l as [|pt l IH]; intros b; simpl.
  - now rewrite orb_false_r.
  - rewrite IH. destruct (marks_open_access pt), b; reflexivity.
Qed.

Lemma open_access_flag_spec e :
  open_access_flag e = true <-> has_pmc_id e \/ has_open_access_type e.
Proof.
  unfold open_access_flag. rewrite orb_true_iff.
  assert (forall A B C D : Prop, (A <-> C) -> (B <-> D) -> (A \/ B <-> C \/ D))
    as Hor by tauto.
  apply Hor.
  - unfold has_pmc_id, find_desc_attr.
    transitivity (exists y, head (List.filter
        (fun x => bool_decide (attrib x !! "IdType" = Some "pmc"))
        (findall_desc "ArticleId" e)) = Some y).
    + destruct (head _); split; eauto; try discriminate. intros [y H]; discriminate.
    + rewrite head_filter_Some. split; intros (x & H1 & H2); exists x.
      * apply In_findall_desc in H1. apply bool_decide_eq_true in H2. tauto.
      * rewrite In_findall_desc, bool_decide_eq_true. tauto.
  - unfold has_open_access_type. rewrite existsb_exists. split.
    + intros (pt & Hin & (t & Ht & Hc)%marks_open_access_spec).
      apply In_findall_desc in Hin. exists pt, t. tauto.
    + intros (pt & t & Hin & Htag & Ht & Hc). exists pt.
      rewrite In_findall_desc, marks_open_access_spec. eauto.
Qed.

Lemma init_Ok id title authors abstract publication_date source url journal oa a :
  Article.init id title authors abstract publication_date source url journal oa
  = Ok a ->
  exists id' title' authors' abstract',
    id = Some id' /\ title = Some title' /\ abstract = Some abstract'
    /\ Article.validate_list_str authors = Ok authors'
    /\ a = Article.mk id' title' authors' abstract' publication_date source url
             journal (Some oa) None None None None None.
Proof.
  unfold Article.init.
  destruct id as [id'|]; [|discriminate].
  destruct title as [title'|]; [|discriminate].
  simpl. destruct (Article.validate_list_str authors) as [authors'|]; [|discriminate].
  destruct abstract as [abstract'|]; [|discriminate].
  simpl. intros [= <-]. now exists id', title', authors', abstract'.
Qed.

Lemma extract_article_open_access e a :
  extract_article e = Ok a ->
  Article.is_open_access a = Some (open_access_flag e).
Proof.
  unfold extract_article. intros H.
  apply init_Ok in H as (? & ? & ? & ? & _ & _ & _ & _ & ->).
  cbn [Article.is_open_access]. rewrite fold_marks. reflexivity.
Qed.

(** ** The loop over the article elements *)

Lemma for_each_article_extracted elems articles :
  fst (for_each_article elems articles) = articles ++ extracted elems.
Proof.
  revert articles. induction elems as [|e elems IH]; intros articles; simpl.
  - now rewrite app_nil_r.
  - destruct (extract_article e) as [a|ex]; simpl.
    + rewrite IH, <- app_assoc. reflexivity.
    + now rewrite app_nil_r.
Qed.

Lemma parse_pubmed_xml_extracted fromstring xml_text pmids root :
  fromstring xml_text = Ok root ->
  parse_pubmed_xml fromstring xml_text pmids
  = extracted (findall_desc "PubmedArticle" root).
Proof.
  intros H. unfold parse_pubmed_xml, try_body. rewrite H.
  pose proof (for_each_article_extracted (findall_desc "PubmedArticle" root) []) as E.
  destruct (for_each_article _ _) as [articles r]. exact E.
Qed.

Lemma extracted_lookup elems i a :
  extracted elems !! i = Some a ->
  exists e, elems !! i = Some e /\ extract_article e = Ok a.
Proof.
  revert i. induction elems as [|e elems IH]; intros i; simpl; [discriminate|].
  destruct (extract_article e) as [a'|ex] eqn:He; [|discriminate].
  destruct i as [|i]; simpl.
  - intros [= <-]. eauto.
  - apply IH.
Qed.

Lemma extracted_all elems :
  Forall (fun e => exists a, extract_article e = Ok a) elems ->
  Forall2 (fun e a => extract_article e = Ok a) elems (extracted elems).
Proof.
  induction 1 as [|e elems [a Ha] _ IH]; simpl; [constructor|].
  rewrite Ha. now constructor.
Qed.

(** C7: the article extracted from an article element has
    [is_open_access = true] exactly when the element has an [ArticleId] of
    type [pmc] below it, or a [PublicationType] whose text contains
    [open access] in any case; otherwise it is [false]. *)
Theorem open_access_detection
    (fromstring : string -> result Element) (xml_text : string)
    (pmids : list string) (root article_elem : Element) (i : nat) (a : Article.t) :
  fromstring xml_text = Ok root ->
  findall_desc "PubmedArticle" root !! i = Some article_elem ->
  parse_pubmed_xml fromstring xml_text pmids !! i = Some a ->
  exists b, Article.is_open_access a = Some b
            /\ (b = true <-> has_pmc_id article_elem \/ has_open_access_type article_elem).
Proof.
  intros Hroot He Ha. rewrite (parse_pubmed_xml_extracted _ _ _ _ Hroot) in Ha.
  apply extracted_lookup in Ha as (e & He' & Hex).
  assert (e = article_elem) as -> by congruence.
  exists (open_access_flag article_elem). split.
  - now apply extract_article_open_access.
  - apply open_access_flag_spec.
Qed.

Lemma open_access_detection_witness :
  let fromstring := fun _ : string => Ok pmc_document in
  findall_desc "PubmedArticle" pmc_document !! 0 = Some pmc_article
  /\ parse_pubmed_xml fromstring pmc_document_text ["31415"] !! 0
     = Some pmc_article_extracted
  /\ existsb marks_open_access (findall_desc "PublicationType" pmc_article) = false
  /\ Article.is_open_access pmc_article_extracted = Some true
  /\ exists b, Article.is_open_access pmc_article_extracted = Some b
               /\ (b = true <-> has_pmc_id pmc_article \/ has_open_access_type pmc_article).
Proof.
  intros fromstring.
  split; [reflexivity|]. split; [reflexivity|]. split; [reflexivity|].
  split; [reflexivity|].
  apply (open_access_detection fromstring pmc_document_text ["31415"]
           pmc_document pmc_article 0 pmc_article_extracted);
    reflexivity.
Defined.

(** ** Missing fields and empty fields *)

(** An article element with nothing below it gets every default. *)
Lemma missing_fields_defaulted (article_elem : Element) :
  children article_elem = [] ->
  extract_article article_elem
  = Ok (Article.mk "unknown" "No title" [] "No abstract available" None
          "pubmed" "https://pubmed.ncbi.nlm.nih.gov/unknown/" None (Some false)
          None None None None None).
Proof.
  intros H. unfold extract_article, find_desc, find_desc_child, find_desc_attr,
    findall_desc, descendants. rewrite H. reflexivity.
Qed.

(** Field by field: what the article has when the element it is read from
    is not found. *)
Lemma missing_field_defaults (article_elem : Element) (a : Article.t) :
  extract_article article_elem = Ok a ->
  (find_desc "PMID" article_elem = None ->
     Article.id a = "unknown"
     /\ Article.url a = "https://pubmed.ncbi.nlm.nih.gov/unknown/")
  /\ (find_desc "ArticleTitle" article_elem = None -> Article.title a = "No title")
  /\ (find_desc "AbstractText" article_elem = None ->
        Article.abstract a = "No abstract available")
  /\ (find_desc_child "PubDate" "Year" article_elem = None ->
        Article.publication_date a = None)
  /\ (find_desc_child "Journal" "Title" article_elem = None ->
      find_desc_child "Journal" "ISOAbbreviation" article_elem = None ->
        Article.journal a = None)
  /\ (findall_desc "Author" article_elem = [] -> Article.authors a = [])
  /\ Article.source a = "pubmed".
Proof.
  unfold extract_article. intros H.
  apply init_Ok in H as (id' & title' & authors' & abstract' & Hid & Htitle
                           & Habs & Hauth & ->).
  cbn [Article.id Article.url Article.title Article.abstract
       Article.publication_date Article.journal Article.authors Article.source].
  repeat apply conj.
  - intros E. rewrite E in Hid. injection Hid as <-. now rewrite E.
  - intros E. rewrite E in Htitle. congruence.
  - intros E. rewrite E in Habs. congruence.
  - intros E. now rewrite E.
  - intros E1 E2. now rewrite E1, E2.
  - intros E. rewrite E in Hauth. simpl in Hauth. congruence.
  - reflexivity.
Qed.

Lemma validate_authors (authors : list Element) :
  forallb author_has_name authors = true ->
  exists names, Article.validate_list_str (flat_map author_name authors) = Ok names.
Proof.
  induction authors as [|x authors IH]; simpl; [eauto|].
  intros [Hx Hrest]%andb_true_iff. destruct (IH Hrest) as [names Hnames].
  unfold author_name, author_has_name in *.
  destruct (find_child "LastName" x) as [lastname|]; [|simpl; eauto].
  destruct (find_child "ForeName" x) as [firstname|]; simpl.
  - rewrite Hnames. simpl. eauto.
  - destruct (text lastname); [|discriminate]. simpl. rewrite Hnames. simpl. eauto.
Qed.

Lemma extract_article_total (article_elem : Element) :
  texts_present article_elem = true ->
  exists a, extract_article article_elem = Ok a.
Proof.
  unfold texts_present, extract_article, text_if_found.
  intros [[[Hid Htitle]%andb_true_iff Habs]%andb_true_iff Hauth]%andb_true_iff.
  destruct (validate_authors _ Hauth) as [names Hnames].
  unfold Article.init. rewrite Hnames.
  destruct (find_desc "PMID" article_elem) as [e1|];
    [destruct (text e1); [|discriminate]|];
    (destruct (find_desc "ArticleTitle" article_elem) as [e2|];
     [destruct (text e2); [|discriminate]|]);
    (destruct (find_desc "AbstractText" article_elem) as [e3|];
     [destruct (text e3); [|discriminate]|]);
    simpl; eauto.
Qed.

(** Elements with missing fields only: every one of them gets its article. *)
Lemma missing_fields_never_stop_extraction
    (fromstring : string -> result Element) (xml_text : string)
    (pmids : list string) (root : Element) :
  fromstring xml_text = Ok root ->
  Forall (fun e => texts_present e = true) (findall_desc "PubmedArticle" root) ->
  Forall2 (fun e a => extract_article e = Ok a)
          (findall_desc "PubmedArticle" root)
          (parse_pubmed_xml fromstring xml_text pmids).
Proof.
  intros Hroot Hall. rewrite (parse_pubmed_xml_extracted _ _ _ _ Hroot).
  apply extracted_all. eapply List.Forall_impl; [|exact Hall].
  intros e He. now apply extract_article_total.
Qed.

(** C1: a record whose title element is there but empty makes the [Article]
    constructor raise; the loop is left, and the record behind it, which
    extracts well on its own, has no article in the result. *)
Theorem empty_title_stops_extraction :
  let fromstring := fun _ : string => Ok empty_title_document in
  findall_desc "PubmedArticle" empty_title_document
    = [first_record; second_record; third_record]
  /\ extract_article second_record = Raise ValidationError
  /\ extract_article third_record = Ok (plain_article "3" "Third")
  /\ parse_pubmed_xml fromstring empty_title_document_text ["1"; "2"; "3"]
     = [plain_article "1" "First"].
Proof.
  intros fromstring. repeat apply conj.
  - reflexivity.
  - reflexivity.
  - reflexivity.
  - unfold parse_pubmed_xml, try_body, fromstring. reflexivity.
Qed.

(** ** Parse failure *)

(** C6: when [ET.fromstring] raises on the text, [parse_pubmed_xml] returns
    the empty list; the exception stops in the [except] clause. *)
Theorem parse_failure_gives_no_articles
    (fromstring : string -> result Element) (xml_text : string)
    (pmids : list string) (e : Exception) :
  fromstring xml_text = Raise e ->
  try_body fromstring xml_text [] = ([], Raise e)
  /\ parse_pubmed_xml fromstring xml_text pmids = [].
Proof.
  intros H. unfold parse_pubmed_xml, try_body. rewrite H. split; reflexivity.
Qed.

Lemma parse_failure_gives_no_articles_witness :
  let fromstring := fun _ : string => @Raise Element ParseError in
  fromstring "<PubmedArticleSet><PubmedArticle>" = Raise ParseError
  /\ parse_pubmed_xml fromstring "<PubmedArticleSet><PubmedArticle>" ["1"; "2"] = [].
Proof.
  intros fromstring. split; [reflexivity|].
  apply (parse_failure_gives_no_articles fromstring _ ["1"; "2"] ParseError).
  reflexivity.
Defined.

(** ** The identifier list *)

(** C8: [parse_pubmed_xml] never reads [pmids]; two calls on the same text
    return the same articles whatever the two identifier lists are. *)
Theorem parse_independent_of_pmids
    (fromstring : string -> result Element) (xml_text : string)
    (pmids1 pmids2 : list string) :
  parse_pubmed_xml fromstring xml_text pmids1
  = parse_pubmed_xml fromstring xml_text pmids2.
Proof. reflexivity. Qed.

(** ** Defaults of the LLM-backed responses *)


Lemma get_present (d : gmap string value) (key : string) (default v : value) :
  d !! key = Some v -> get d key default = v.
Proof. intros H. unfold get. rewrite H. reflexivity. Qed.

Lemma generate_query_response_lookup (content : gmap string value)
    (key : string) (default : value) :
  In (key, default) generate_query_defaults ->
  generate_query_response content !! key = Some (get content key default).
Proof.
  intros Hin; simpl in Hin.
  repeat (destruct Hin as [Hin | Hin]; [injection Hin as <- <- | ]);
    try contradiction;
    unfold generate_query_response; simpl;
    repeat (first [ rewrite lookup_insert_eq
                  | rewrite lookup_insert_ne by discriminate ]);
    reflexivity.
Qed.

Lemma classify_response_lookup (article_id : string)
    (classification : gmap string value) (key : string) (default : value) :
  In (key, default) classify_defaults ->
  classify_response article_id classification !! key
  = Some (get classification key default).
Proof.
  intros Hin; simpl in Hin.
  repeat (destruct Hin as [Hin | Hin]; [injection Hin as <- <- | ]);
    try contradiction;
    unfold classify_response; simpl;
    repeat (first [ rewrite lookup_insert_eq
                  | rewrite lookup_insert_ne by discriminate ]);
    reflexivity.
Qed.

(** A key the content has is passed through unchanged. *)
Lemma llm_response_passes_present (content : gmap string value)
    (article_id key : string) (default v : value) :
  content !! key = Some v ->
  (In (key, default) generate_query_defaults ->
     generate_query_response content !! key = Some v)
  /\ (In (key, default) classify_defaults ->
       classify_response article_id content !! key = Some v).
Proof.
  intros H; split; intros Hin.
  - rewrite (generate_query_response_lookup _ _ _ Hin).
    now rewrite (get_present _ _ _ _ H).
  - rewrite (classify_response_lookup _ _ _ _ Hin).
    now rewrite (get_present _ _ _ _ H).
Qed.



(** * Further properties of the query compiler *)

(** ** More facts about characters and strings *)

Lemma all_chars_append p a b :
  all_chars p (a +:+ b) = all_chars p a && all_chars p b.
Proof.
  induction a as [|x a IH]; [reflexivity|].
  rewrite app_cons; simpl. now rewrite IH, andb_assoc.
Qed.

Lemma has_char_append p a b :
  has_char p (a +:+ b) = has_char p a || has_char p b.
Proof.
  induction a as [|x a IH]; [reflexivity|].
  rewrite app_cons; simpl. now rewrite IH, orb_assoc.
Qed.

Lemma all_chars_weaken (p q : ascii -> bool) s :
  (forall c, p c = true -> q c = true) ->
  all_chars p s = true -> all_chars q s = true.
Proof.
  intros Hpq. induction s as [|c s IH]; [reflexivity|]. simpl.
  intros [Hc Hs]%andb_true_iff. now rewrite (Hpq _ Hc), IH.
Qed.

Lemma has_char_keep p s : has_char p s = nonempty (keep p s).
Proof.
  induction s as [|c s IH]; [reflexivity|]. simpl.
  destruct (p c); [reflexivity | exact IH].
Qed.

Lemma has_char_strip p s :
  (forall c, isspace c = true -> p c = false) ->
  has_char p (strip s) = has_char p s.
Proof. intros Hp. now rewrite !has_char_keep, keep_strip. Qed.

Lemma strip_empty s : strip s = "" -> all_chars isspace s = true.
Proof.
  intros H. destruct (lstrip_split s) as (w1 & H1 & Hw1).
  destruct (rstrip_split (lstrip s)) as (w2 & H2 & Hw2).
  unfold strip in H. rewrite H, app_empty_l in H2.
  rewrite H1, H2, all_chars_append, Hw1, Hw2. reflexivity.
Qed.

Lemma join_nonempty sep x l :
  nonempty x = true -> nonempty (join sep (x :: l)) = true.
Proof.
  intros Hx. destruct l as [|y l]; [exact Hx|].
  change (join sep (x :: y :: l)) with (x +:+ sep +:+ join sep (y :: l)).
  now apply nonempty_app_l.
Qed.

Lemma nonempty_upper s : nonempty (upper s) = nonempty s.
Proof. now destruct s. Qed.

Lemma tag_term_nonempty field_tag term :
  nonempty term = true -> nonempty (tag_term field_tag term) = true.
Proof.
  intros H. unfold tag_term. destruct (has_char is_blank term); [reflexivity|].
  now apply nonempty_app_l.
Qed.

Lemma token_shape_nonempty t : token_shape t -> nonempty t = true.
Proof.
  intros [[Hs _] | [-> | [-> | [H _]]]]; auto. now destruct t.
Qed.

Lemma token_none_not_alnum prev c s :
  Re.token prev (String c s) = None -> is_alnum c = false.
Proof.
  unfold Re.token. destruct (Re.quoted _); [discriminate|].
  destruct (Re.paren _); [discriminate|].
  destruct (Re.operator _ _); [discriminate|].
  unfold Re.word. simpl. destruct (is_alnum c); [|reflexivity].
  destruct (span is_alnum s). discriminate.
Qed.


(** ** More facts about the tokens *)

Lemma findall_from_keep p fuel prev s :
  (forall prev' c s', Re.token prev' (String c s') = None -> p c = false) ->
  String.length s <= fuel ->
  keep p (cat (Re.findall_from fuel prev s)) = keep p s.
Proof.
  intros Hp. revert prev s. induction fuel as [|fuel IH]; intros prev s Hlen.
  - destruct s; [reflexivity | simpl in Hlen; lia].
  - destruct s as [|c s]; [reflexivity|].
    cbn [Re.findall_from].
    destruct (Re.token prev (String c s)) as [[m r]|] eqn:Ht.
    + destruct (token_split _ _ _ _ Ht) as (E & Hne & _).
      assert (String.length r <= fuel) as Hr.
      { apply (f_equal String.length) in E. rewrite str_length_app in E.
        apply nonempty_length in Hne. simpl in *. lia. }
      rewrite E. cbn [cat fold_right].
      fold (cat (Re.findall_from fuel (last_char prev m) r)).
      now rewrite !keep_app, (IH _ _ Hr).
    + simpl in Hlen. simpl. rewrite (Hp _ _ _ Ht). apply IH. lia.
Qed.

Lemma findall_from_all p fuel prev s :
  all_chars p s = true ->
  Forall (fun t => all_chars p t = true) (Re.findall_from fuel prev s).
Proof.
  revert prev s. induction fuel as [|fuel IH]; intros prev s Hs; [constructor|].
  destruct s as [|c s]; [constructor|].
  cbn [Re.findall_from].
  destruct (Re.token prev (String c s)) as [[m r]|] eqn:Ht.
  - destruct (token_split _ _ _ _ Ht) as (E & _ & _).
    rewrite E, all_chars_append in Hs. apply andb_true_iff in Hs as [Hm Hr].
    constructor; auto.
  - simpl in Hs. apply andb_true_iff in Hs as [_ Hs]. auto.
Qed.

Lemma findall_from_nonempty fuel prev s :
  String.length s <= fuel ->
  has_char (fun c => is_paren c || is_alnum c) s = true ->
  Re.findall_from fuel prev s <> [].
Proof.
  revert prev s. induction fuel as [|fuel IH]; intros prev s Hlen Hs.
  - destruct s; [discriminate | simpl in Hlen; lia].
  - destruct s as [|c s]; [discriminate|].
    cbn [Re.findall_from].
    destruct (Re.token prev (String c s)) as [[m r]|] eqn:Ht; [discriminate|].
    simpl in Hs, Hlen.
    rewrite (token_none_not_paren _ _ _ Ht), (token_none_not_alnum _ _ _ Ht) in Hs.
    apply IH; [lia | exact Hs].
Qed.

Lemma all_chars_strip p s : all_chars p s = true -> all_chars p (strip s) = true.
Proof.
  intros H. destruct (lstrip_split s) as (w1 & H1 & _).
  destruct (rstrip_split (lstrip s)) as (w2 & H2 & _).
  rewrite H1, H2, !all_chars_append in H. unfold strip.
  apply andb_true_iff in H as [_ H]. now apply andb_true_iff in H as [H _].
Qed.

Lemma no_char_all p s :
  has_char p s = false -> all_chars (fun c => negb (p c)) s = true.
Proof.
  induction s as [|c s IH]; [reflexivity|]. simpl.
  intros [Hc Hs]%orb_false_iff. now rewrite Hc, IH.
Qed.

Lemma all_chars_join p sep l :
  all_chars p sep = true -> Forall (fun t => all_chars p t = true) l ->
  all_chars p (join sep l) = true.
Proof.
  intros Hsep. induction 1 as [|x l Hx Hl IH]; [reflexivity|].
  destruct l as [|y l]; [exact Hx|].
  change (join sep (x :: y :: l)) with (x +:+ sep +:+ join sep (y :: l)).
  now rewrite !all_chars_append, Hx, Hsep, IH.
Qed.

Lemma complex_has_token_char keywords :
  is_complex keywords = true ->
  has_char (fun c => is_paren c || is_alnum c) (strip keywords) = true.
Proof.
  unfold is_complex. intros H.
  rewrite has_char_strip
    by (intros c Hc; now rewrite (space_not_paren _ Hc), (space_not_alnum _ Hc)).
  apply orb_true_iff in H as [H | H].
  - clear -H. induction keywords as [|c s IH]; [discriminate|]. simpl in *.
    destruct (is_paren c); [reflexivity|]. simpl in *. rewrite IH by assumption.
    now rewrite orb_true_r.
  - destruct (has_char is_alnum keywords) eqn:Hal.
    + clear -Hal. induction keywords as [|c s IH]; [discriminate|]. simpl in *.
      destruct (is_alnum c); [now rewrite orb_true_r|]. simpl in *.
      rewrite IH by assumption. now rewrite orb_true_r.
    + rewrite (search_operator_no_alnum None _ Hal) in H. discriminate.
Qed.

(** ** The query is empty for blank keywords only *)

Lemma process_tokens_head fuel field_tag t tokens :
  token_shape t ->
  exists r rs, process_tokens (S fuel) field_tag (t :: tokens) = r :: rs
               /\ nonempty r = true.
Proof.
  intros Ht%token_shape_nonempty. cbn [process_tokens].
  destruct (in_list (upper t) operators_and_parens).
  { eexists _, _. split; [reflexivity|].
    destruct (in_list (upper t) operators); [now rewrite nonempty_upper | exact Ht]. }
  destruct (startswith is_dquote t && endswith is_dquote t).
  { eexists _, _. split; [reflexivity|]. now apply nonempty_app_l. }
  destruct (phrase_rest tokens) as [more rest].
  eexists _, _. split; [reflexivity|].
  destruct (1 <? length (t :: more)); [reflexivity|].
  apply nonempty_app_l. now apply join_nonempty.
Qed.

(** X1: keywords that are not blank never give the empty query, in either
    grammar: with C5, the query is empty exactly for blank keywords. *)
Theorem nonblank_keywords_give_a_query (keywords search_mode search_fields : string) :
  all_chars isspace keywords = false ->
  build_pubmed_query keywords search_mode search_fields <> "".
Proof.
  intros Hws.
  assert (nonempty (build_pubmed_query keywords search_mode search_fields) = true)
    as Hne; [|intros E; rewrite E in Hne; discriminate].
  assert (nonempty (strip keywords) = true) as Hstrip.
  { destruct (strip keywords) eqn:E; [|reflexivity].
    apply strip_empty in E. congruence. }
  unfold build_pubmed_query. destruct (is_complex keywords) eqn:Hc.
  - rewrite token_loop_all. unfold Re.findall.
    pose proof (findall_from_nonempty _ None _ (Nat.le_refl _)
                  (complex_has_token_char _ Hc)) as Hne.
    destruct (findall_from_parens (String.length (strip keywords)) None
                (strip keywords) (Nat.le_refl _)) as [_ Hshape].
    destruct (Re.findall_from _ None (strip keywords)) as [|t tokens];
      [congruence|].
    inversion Hshape as [|? ? Ht _]; subst.
    destruct (process_tokens_head (length tokens) (field_tag_of search_fields)
                t tokens Ht) as (r & rs & E & Hr).
    cbn [length]. rewrite E. now apply join_nonempty.
  - fold (spec_simple_terms keywords).
    destruct (spec_simple_terms keywords) as [|t terms] eqn:Hterms.
    + cbn [length Nat.eqb orb andb hd]. rewrite Hstrip. cbn [negb map].
      now apply join_nonempty, tag_term_nonempty.
    + assert (nonempty t = true) as Ht.
      { assert (In t (spec_simple_terms keywords)) as Hin
          by (rewrite Hterms; now left).
        unfold spec_simple_terms in Hin. apply filter_In in Hin. tauto. }
      cbn [length Nat.eqb orb hd]. rewrite Ht.
      rewrite andb_false_r. cbn [map].
      now apply join_nonempty, tag_term_nonempty.
Qed.

Lemma nonblank_keywords_give_a_query_witness :
  all_chars isspace " , " = false
  /\ build_pubmed_query " , " "AND" "title" <> "".
Proof.
  split; [reflexivity|].
  apply (nonblank_keywords_give_a_query " , " "AND" "title"). reflexivity.
Defined.

(** ** What the complex grammar keeps and what it drops *)

Lemma alnums_of_cons x l : alnums_of (x :: l) = keep is_alnum x +:+ alnums_of l.
Proof. reflexivity. Qed.

Lemma operator_text t :
  in_list t operators = true -> t = "AND" \/ t = "OR".
Proof.
  unfold in_list, operators; simpl.
  destruct (String.eqb_spec t "AND"); [auto|].
  destruct (String.eqb_spec t "OR"); [auto|]. discriminate.
Qed.

Lemma not_operator t :
  in_list t operators_and_parens = false -> in_list t operators = false.
Proof.
  unfold in_list, operators_and_parens, operators. simpl.
  destruct (String.eqb t "AND"); [discriminate|].
  destruct (String.eqb t "OR"); [discriminate | reflexivity].
Qed.

Lemma written_plain t :
  in_list (upper t) operators_and_parens = false -> written t = keep is_alnum t.
Proof. intros H. unfold written. now rewrite (not_operator _ H). Qed.

Lemma written_operator t :
  in_list (upper t) operators = true -> keep is_alnum (upper t) = written t.
Proof.
  intros H. unfold written. rewrite H.
  apply operator_text in H as [-> | ->]; reflexivity.
Qed.

Lemma written_bare more :
  Forall (fun t => in_list (upper t) operators_and_parens = false
                   /\ startswith is_dquote t = false) more ->
  cat (map written more) = alnums_of more.
Proof.
  induction 1 as [|t more [Ht _] _ IH]; [reflexivity|].
  rewrite alnums_of_cons. cbn [map cat fold_right].
  fold (cat (map written more)). now rewrite IH, written_plain.
Qed.

(** The letters and digits the walk writes are those of the tokens, each
    as [written] gives it. *)
Lemma process_tokens_written fuel tokens :
  length tokens <= fuel ->
  alnums_of (process_tokens fuel "" tokens) = cat (map written tokens).
Proof.
  revert tokens. induction fuel as [|fuel IH]; intros tokens Hlen.
  - destruct tokens; [reflexivity | simpl in Hlen; lia].
  - destruct tokens as [|t tokens]; [reflexivity|].
    simpl in Hlen. cbn [process_tokens map cat fold_right].
    fold (cat (map written tokens)).
    destruct (in_list (upper t) operators_and_parens) eqn:Hop.
    { rewrite alnums_of_cons, IH by lia. f_equal.
      destruct (in_list (upper t) operators) eqn:Hopr.
      - now apply written_operator.
      - unfold written. now rewrite Hopr. }
    destruct (startswith is_dquote t && endswith is_dquote t).
    { rewrite alnums_of_cons, IH by lia.
      now rewrite app_empty_r, written_plain. }
    destruct (phrase_rest tokens) as [more rest] eqn:Hpr.
    destruct (phrase_rest_split _ _ _ Hpr) as [-> Hbare].
    rewrite length_app in Hlen.
    rewrite map_app, cat_app, (written_bare _ Hbare), (written_plain _ Hop).
    rewrite alnums_of_cons, IH by lia.
    rewrite <- str_app_assoc. f_equal.
    assert (keep is_alnum (join " " (t :: more)) = alnums_of (t :: more)) as Hphrase
      by (now rewrite keep_join by reflexivity).
    rewrite alnums_of_cons in Hphrase.
    destruct (1 <? length (t :: more)).
    + rewrite app_cons. cbn [keep]. change (is_alnum dquote) with false. cbv iota.
      rewrite keep_app, Hphrase. cbn [keep]. change (is_alnum dquote) with false.
      cbv iota. cbn [keep]. now rewrite app_empty_r.
    + now rewrite app_empty_r, Hphrase.
Qed.

Lemma written_unchanged tokens :
  Forall (fun token => in_list (upper token) operators = true ->
                       upper token = token) tokens ->
  cat (map written tokens) = keep is_alnum (cat tokens).
Proof.
  intros H. rewrite keep_cat. f_equal.
  induction H as [|t tokens Ht _ IH]; [reflexivity|].
  cbn [map]. f_equal; [|exact IH].
  destruct (in_list (upper t) operators) eqn:Hopr.
  - rewrite <- (written_operator _ Hopr). now rewrite (Ht eq_refl).
  - unfold written. now rewrite Hopr.
Qed.

(** X2: in the complex grammar with no field tag, the tokenizer loses no
    ASCII letter or digit of the keywords, and the ASCII letters and digits
    of the query are those of the tokens, in order and each in its own
    case, but for the tokens [and] and [or], which are written in upper
    case whatever their case was; when these are in upper case already,
    the ASCII letters and digits of the query are exactly those of the
    keywords. *)
Theorem complex_query_keeps_letters_and_digits (keywords search_mode : string) :
  is_complex keywords = true ->
  keep is_alnum (cat (Re.findall (strip keywords))) = keep is_alnum keywords
  /\ keep is_alnum (build_pubmed_query keywords search_mode "all")
     = cat (map written (Re.findall (strip keywords)))
  /\ (Forall (fun token => in_list (upper token) operators = true ->
                           upper token = token)
             (Re.findall (strip keywords)) ->
       keep is_alnum (build_pubmed_query keywords search_mode "all")
       = keep is_alnum keywords).
Proof.
  intros Hc.
  assert (keep is_alnum (cat (Re.findall (strip keywords)))
          = keep is_alnum keywords) as Htokens.
  { unfold Re.findall.
    rewrite findall_from_keep by (eauto using token_none_not_alnum).
    now rewrite keep_strip by auto with chars. }
  assert (keep is_alnum (build_pubmed_query keywords search_mode "all")
          = cat (map written (Re.findall (strip keywords)))) as Hquery.
  { unfold build_pubmed_query. rewrite Hc.
    rewrite token_loop_all, keep_join by reflexivity.
    change (field_tag_of "all") with "".
    fold (alnums_of (process_tokens (length (Re.findall (strip keywords))) ""
                                    (Re.findall (strip keywords)))).
    now rewrite process_tokens_written by lia. }
  repeat apply conj; [exact Htokens | exact Hquery |].
  intros Hupper. now rewrite Hquery, (written_unchanged _ Hupper).
Qed.

Lemma complex_query_keeps_letters_and_digits_witness :
  is_complex "LC-MS and (GC-MS or nmr)" = true
  /\ keep is_alnum (build_pubmed_query "LC-MS and (GC-MS or nmr)" "OR" "all")
     = "LCMSANDGCMSORnmr"
  /\ is_complex "LC-MS AND nmr" = true
  /\ keep is_alnum (build_pubmed_query "LC-MS AND nmr" "OR" "all") = "LCMSANDnmr".
Proof.
  split; [reflexivity|].
  destruct (complex_query_keeps_letters_and_digits "LC-MS and (GC-MS or nmr)"
              "OR" eq_refl) as (_ & H1 & _).
  split; [rewrite H1; reflexivity|].
  split; [reflexivity|].
  destruct (complex_query_keeps_letters_and_digits "LC-MS AND nmr" "OR" eq_refl)
    as (_ & _ & H2).
  rewrite H2; [reflexivity|].
  repeat constructor; vm_compute; congruence.
Defined.

Lemma query_char_tag pre field_tag :
  all_chars (query_char (pre +:+ field_tag)) field_tag = true.
Proof.
  revert pre. induction field_tag as [|c tag IH]; intros pre; [reflexivity|].
  simpl. apply andb_true_iff. split.
  - unfold query_char. rewrite has_char_append. simpl. rewrite Ascii.eqb_refl.
    now rewrite !orb_true_r.
  - specialize (IH (pre +:+ String c "")).
    now rewrite str_app_assoc, app_cons, app_empty_l in IH.
Qed.

Lemma alnum_query_char field_tag t :
  all_chars is_alnum t = true -> all_chars (query_char field_tag) t = true.
Proof.
  apply all_chars_weaken. intros c Hc. unfold query_char. now rewrite Hc.
Qed.

(** A token of keywords without a double quote is a parenthesis or a run
    of letters and digits. *)
Lemma plain_token t :
  token_shape t -> all_chars (fun c => negb (is_dquote c)) t = true ->
  startswith is_dquote t = false
  /\ (t = "(" \/ t = ")" \/ all_chars is_alnum t = true).
Proof.
  intros Hshape Hq.
  assert (startswith is_dquote t = false) as Hs.
  { destruct t as [|c t]; [reflexivity|]. simpl in *.
    apply andb_true_iff in Hq as [Hc _]. now apply negb_true_iff in Hc. }
  split; [exact Hs|].
  destruct Hshape as [[Hs' _] | [-> | [-> | [_ H]]]]; auto. congruence.
Qed.

Lemma process_tokens_chars fuel field_tag tokens :
  Forall token_shape tokens ->
  Forall (fun t => all_chars (fun c => negb (is_dquote c)) t = true) tokens ->
  length tokens <= fuel ->
  Forall (fun t => all_chars (query_char field_tag) t = true)
         (process_tokens fuel field_tag tokens).
Proof.
  revert tokens. induction fuel as [|fuel IH]; intros tokens Hshape Hq Hlen;
    [constructor|].
  destruct tokens as [|t tokens]; [constructor|].
  inversion Hshape as [|? ? Ht Hts]; subst.
  inversion Hq as [|? ? Hqt Hqts]; subst. simpl in Hlen.
  destruct (plain_token t Ht Hqt) as [Hstart Hplain].
  cbn [process_tokens].
  destruct (in_list (upper t) operators_and_parens) eqn:Hop.
  { constructor; [|apply IH; auto; lia].
    destruct (in_list (upper t) operators) eqn:Hopr.
    - apply operator_text in Hopr as [-> | ->]; reflexivity.
    - destruct Hplain as [-> | [-> | Hal]]; try reflexivity.
      now apply alnum_query_char. }
  rewrite Hstart. cbn [andb].
  destruct (phrase_rest tokens) as [more rest] eqn:Hpr.
  destruct (phrase_rest_split _ _ _ Hpr) as [-> Hbare].
  apply Forall_app in Hts as [Hmore Hrest].
  apply Forall_app in Hqts as [_ Hqrest].
  rewrite length_app in Hlen.
  assert (Forall (fun t => all_chars is_alnum t = true) (t :: more)) as Hal.
  { constructor; [|now apply bare_words_no_paren].
    apply bare_word_alnum; auto. now rewrite Hstart. }
  assert (all_chars (query_char field_tag) (join " " (t :: more)) = true) as Hphrase.
  { apply all_chars_join; [reflexivity|].
    eapply List.Forall_impl; [|exact Hal]. intros x; apply alnum_query_char. }
  constructor; [|apply IH; auto; lia].
  pose proof (query_char_tag "" field_tag) as Htag. rewrite app_empty_l in Htag.
  destruct (1 <? length (t :: more)).
  - rewrite app_cons. cbn [all_chars]. rewrite all_chars_append, Hphrase.
    cbn [all_chars]. rewrite Htag. reflexivity.
  - now rewrite all_chars_append, Hphrase, Htag.
Qed.

(** X3: when the keywords have no double quote, the complex grammar lets
    nothing through but letters, digits, blanks, parentheses, the quotes it
    puts around phrases and the field tag: a hyphen, a comma or any other
    sign of the keywords is dropped. *)
Theorem complex_query_drops_punctuation (keywords search_mode search_fields : string) :
  is_complex keywords = true ->
  has_char is_dquote keywords = false ->
  all_chars (query_char (field_tag_of search_fields))
            (build_pubmed_query keywords search_mode search_fields) = true.
Proof.
  intros Hc Hq. unfold build_pubmed_query. rewrite Hc, token_loop_all.
  apply all_chars_join; [reflexivity|]. unfold Re.findall.
  destruct (findall_from_parens (String.length (strip keywords)) None
              (strip keywords) (Nat.le_refl _)) as [_ Hshape].
  apply process_tokens_chars; auto.
  apply findall_from_all, all_chars_strip, no_char_all, Hq.
Qed.

Lemma complex_query_drops_punctuation_witness :
  is_complex "LC-MS AND sample, plasma" = true
  /\ has_char is_dquote "LC-MS AND sample, plasma" = false
  /\ build_pubmed_query "LC-MS AND sample, plasma" "AND" "title"
     = String dquote "LC MS" +:+ String dquote "[Title] AND "
       +:+ String dquote "sample plasma" +:+ String dquote "[Title]"
  /\ all_chars (query_char "[Title]")
       (build_pubmed_query "LC-MS AND sample, plasma" "AND" "title") = true.
Proof.
  split; [reflexivity|]. split; [reflexivity|]. split; [reflexivity|].
  apply (complex_query_drops_punctuation "LC-MS AND sample, plasma" "AND" "title");
    reflexivity.
Defined.

(** ** Where the mode counts *)

(** X4: [search_mode] reaches the query only as the separator of the
    simple grammar: a complex input, or a simple one with at most one term,
    gives the same query for every mode. *)
Theorem mode_only_separates_simple_terms
    (keywords mode1 mode2 search_fields : string) :
  is_complex keywords = true \/ length (spec_simple_terms keywords) <= 1 ->
  build_pubmed_query keywords mode1 search_fields
  = build_pubmed_query keywords mode2 search_fields.
Proof.
  intros H. unfold build_pubmed_query.
  destruct (is_complex keywords); [reflexivity|].
  destruct H as [H | H]; [discriminate|].
  fold (spec_simple_terms keywords).
  destruct (spec_simple_terms keywords) as [|t [|t' terms]]; simpl in H;
    [| |lia].
  - cbn [length Nat.eqb orb andb hd]. now destruct (nonempty (strip keywords)).
  - cbn [length Nat.eqb orb andb hd]. now destruct (nonempty t).
Qed.

Lemma mode_only_separates_simple_terms_witness :
  is_complex "(SRM 1950 OR SRM1950) AND HILIC" = true
  /\ length (spec_simple_terms "SRM 1950") <= 1
  /\ build_pubmed_query "(SRM 1950 OR SRM1950) AND HILIC" "AND" "all"
     = build_pubmed_query "(SRM 1950 OR SRM1950) AND HILIC" "OR" "all"
  /\ build_pubmed_query "SRM 1950" "AND" "all"
     = build_pubmed_query "SRM 1950" "OR" "all".
Proof.
  split; [reflexivity|]. split; [vm_compute; lia|]. split.
  - apply (mode_only_separates_simple_terms
             "(SRM 1950 OR SRM1950) AND HILIC" "AND" "OR" "all").
    left. reflexivity.
  - apply (mode_only_separates_simple_terms "SRM 1950" "AND" "OR" "all").
    right. vm_compute. lia.
Defined.

(** * Further properties of the record extractor *)

Lemma extracted_In elems a :
  In a (extracted elems) -> exists e, In e elems /\ extract_article e = Ok a.
Proof.
  induction elems as [|e elems IH]; simpl; [contradiction|].
  destruct (extract_article e) as [a'|ex] eqn:He; [|contradiction].
  intros [<- | Hin]; [eauto|]. destruct (IH Hin) as (e' & He' & Hex). eauto.
Qed.

Lemma extracted_length elems : length (extracted elems) <= length elems.
Proof.
  induction elems as [|e elems IH]; simpl; [lia|].
  destruct (extract_article e); simpl; lia.
Qed.

Lemma parse_pubmed_xml_cases fromstring xml_text pmids :
  parse_pubmed_xml fromstring xml_text pmids = []
  \/ exists root, fromstring xml_text = Ok root
                  /\ parse_pubmed_xml fromstring xml_text pmids
                     = extracted (findall_desc "PubmedArticle" root).
Proof.
  destruct (fromstring xml_text) as [root|ex] eqn:H.
  - right. exists root. split; [reflexivity|].
    now apply parse_pubmed_xml_extracted.
  - left. unfold parse_pubmed_xml, try_body. now rewrite H.
Qed.

Lemma extract_article_fields e a :
  extract_article e = Ok a ->
  first_text_or "PMID" "unknown" e (Article.id a)
  /\ first_text_or "ArticleTitle" "No title" e (Article.title a)
  /\ first_text_or "AbstractText" "No abstract available" e (Article.abstract a)
  /\ Article.url a = pubmed_url (Article.id a)
  /\ Article.source a = "pubmed"
  /\ Article.validate_list_str
       (flat_map author_name (findall_desc "Author" e)) = Ok (Article.authors a)
  /\ Article.has_dataset a = None /\ Article.classification_reason a = None
  /\ Article.data_availability a = None /\ Article.labels a = None
  /\ Article.method_types a = None.
Proof.
  unfold extract_article, first_text_or. intros H.
  apply init_Ok in H as (id' & title' & authors' & abstract' & Hid & Htitle
                           & Habs & Hauth & ->).
  cbn [Article.id Article.url Article.title Article.abstract Article.source
       Article.authors Article.has_dataset Article.classification_reason
       Article.data_availability Article.labels Article.method_types].
  repeat apply conj; try reflexivity; try assumption.
  - destruct (find_desc "PMID" e); congruence.
  - destruct (find_desc "ArticleTitle" e); congruence.
  - destruct (find_desc "AbstractText" e); congruence.
  - now rewrite Hid.
Qed.

(** X5: every article [parse_pubmed_xml] returns has the source [pubmed],
    a URL made from its own id, an open-access flag that is set, and the
    five classification fields unset. *)
Theorem returned_articles_are_pubmed_records
    (fromstring : string -> result Element) (xml_text : string)
    (pmids : list string) (a : Article.t) :
  In a (parse_pubmed_xml fromstring xml_text pmids) ->
  Article.source a = "pubmed"
  /\ Article.url a = pubmed_url (Article.id a)
  /\ Article.is_open_access a <> None
  /\ Article.has_dataset a = None /\ Article.classification_reason a = None
  /\ Article.data_availability a = None /\ Article.labels a = None
  /\ Article.method_types a = None.
Proof.
  intros Hin.
  destruct (parse_pubmed_xml_cases fromstring xml_text pmids) as [E | (root & _ & E)];
    rewrite E in Hin; [contradiction|].
  apply extracted_In in Hin as (e & _ & He).
  pose proof (extract_article_open_access _ _ He) as Hoa.
  destruct (extract_article_fields _ _ He)
    as (_ & _ & _ & Hurl & Hsrc & _ & H1 & H2 & H3 & H4 & H5).
  repeat apply conj; auto. rewrite Hoa. discriminate.
Qed.

Lemma returned_articles_are_pubmed_records_witness :
  let fromstring := fun _ : string => Ok pmc_document in
  In pmc_article_extracted (parse_pubmed_xml fromstring pmc_document_text [])
  /\ Article.url pmc_article_extracted = "https://pubmed.ncbi.nlm.nih.gov/31415/"
  /\ Article.source pmc_article_extracted = "pubmed".
Proof.
  intros fromstring.
  assert (In pmc_article_extracted
            (parse_pubmed_xml fromstring pmc_document_text [])) as Hin
    by (left; reflexivity).
  split; [exact Hin|].
  destruct (returned_articles_are_pubmed_records fromstring pmc_document_text []
              pmc_article_extracted Hin) as (Hsrc & Hurl & _).
  split; [exact Hurl | exact Hsrc].
Defined.

(** X6: the articles come in document order, one for each article element
    from the first on and never more than there are elements; the i-th
    article has the texts of the first [PMID], [ArticleTitle] and
    [AbstractText] below the i-th element, or their defaults. *)
Theorem articles_follow_the_elements
    (fromstring : string -> result Element) (xml_text : string)
    (pmids : list string) (root : Element) :
  fromstring xml_text = Ok root ->
  length (parse_pubmed_xml fromstring xml_text pmids)
    <= length (findall_desc "PubmedArticle" root)
  /\ forall i a,
       parse_pubmed_xml fromstring xml_text pmids !! i = Some a ->
       exists article_elem,
         findall_desc "PubmedArticle" root !! i = Some article_elem
         /\ first_text_or "PMID" "unknown" article_elem (Article.id a)
         /\ first_text_or "ArticleTitle" "No title" article_elem (Article.title a)
         /\ first_text_or "AbstractText" "No abstract available" article_elem
              (Article.abstract a).
Proof.
  intros Hroot. rewrite (parse_pubmed_xml_extracted _ _ _ _ Hroot).
  split; [apply extracted_length|].
  intros i a (e & He & Hex)%extracted_lookup. exists e.
  destruct (extract_article_fields _ _ Hex) as (H1 & H2 & H3 & _). auto.
Qed.

Lemma articles_follow_the_elements_witness :
  let fromstring := fun _ : string => Ok empty_title_document in
  length (parse_pubmed_xml fromstring empty_title_document_text []) <= 3
  /\ exists article_elem,
       findall_desc "PubmedArticle" empty_title_document !! 0 = Some article_elem
       /\ first_text_or "PMID" "unknown" article_elem "1"
       /\ first_text_or "ArticleTitle" "No title" article_elem "First"
       /\ first_text_or "AbstractText" "No abstract available" article_elem
            "No abstract available".
Proof.
  intros fromstring.
  destruct (articles_follow_the_elements fromstring empty_title_document_text []
              empty_title_document eq_refl) as [Hlen Hat].
  split; [exact Hlen|].
  apply (Hat 0 (plain_article "1" "First")). reflexivity.
Defined.


(** ** When a record is lost *)

Lemma validate_authors_fail (authors : list Element) :
  forallb author_has_name authors = false ->
  Article.validate_list_str (flat_map author_name authors) = Raise ValidationError.
Proof.
  induction authors as [|x authors IH]; simpl; [discriminate|].
  intros H. unfold author_name, author_has_name in *.
  destruct (find_child "LastName" x) as [lastname|]; [|simpl in *; auto].
  destruct (find_child "ForeName" x) as [firstname|]; simpl in *.
  - now rewrite IH.
  - destruct (text lastname); simpl in *; [now rewrite IH | reflexivity].
Qed.

Lemma extract_article_fails (article_elem : Element) :
  texts_present article_elem = false ->
  extract_article article_elem = Raise ValidationError.
Proof.
  unfold texts_present, extract_article, text_if_found, Article.init.
  intros H.
  destruct (find_desc "PMID" article_elem) as [e1|];
    [destruct (text e1); [|reflexivity]|];
    (destruct (find_desc "ArticleTitle" article_elem) as [e2|];
     [destruct (text e2); [|reflexivity]|]);
    simpl in *;
    (destruct (forallb author_has_name (findall_desc "Author" article_elem)) eqn:Ha;
     [destruct (validate_authors _ Ha) as [names ->]
     |rewrite (validate_authors_fail _ Ha); reflexivity]);
    (destruct (find_desc "AbstractText" article_elem) as [e3|];
     [destruct (text e3); [|reflexivity]|]);
    simpl in *; discriminate.
Qed.

Lemma extracted_full elems :
  length (extracted elems) = length elems <-> forallb texts_present elems = true.
Proof.
  induction elems as [|e elems IH]; simpl; [tauto|].
  destruct (texts_present e) eqn:He.
  - destruct (extract_article_total _ He) as [a ->]. simpl. rewrite <- IH. lia.
  - rewrite (extract_article_fails _ He). simpl. split; [lia | discriminate].
Qed.

(** X7: every article element gets its article exactly when none of them
    has a [PMID], [ArticleTitle] or [AbstractText] found first that is
    empty, nor an author whose last name is empty and who has no fore
    name. *)
Theorem all_records_extracted_iff
    (fromstring : string -> result Element) (xml_text : string)
    (pmids : list string) (root : Element) :
  fromstring xml_text = Ok root ->
  length (parse_pubmed_xml fromstring xml_text pmids)
    = length (findall_desc "PubmedArticle" root)
  <-> forallb texts_present (findall_desc "PubmedArticle" root) = true.
Proof.
  intros Hroot. rewrite (parse_pubmed_xml_extracted _ _ _ _ Hroot).
  apply extracted_full.
Qed.

Lemma all_records_extracted_iff_witness :
  let fromstring := fun _ : string => Ok authored_document in
  forallb texts_present (findall_desc "PubmedArticle" authored_document) = true
  /\ length (parse_pubmed_xml fromstring "" []) = 2.
Proof.
  intros fromstring. split; [reflexivity|].
  apply (all_records_extracted_iff fromstring "" [] authored_document eq_refl).
  reflexivity.
Defined.

(** ** Authors *)

Lemma validated_names (authors : list Element) (names : list string) :
  Article.validate_list_str (flat_map author_name authors) = Ok names ->
  Forall2 display_name (List.filter has_last_name authors) names.
Proof.
  revert names. induction authors as [|x authors IH]; intros names; simpl.
  - intros [= <-]. constructor.
  - unfold author_name at 1, has_last_name at 1.
    destruct (find_child "LastName" x) as [lastname|] eqn:Hl; [|apply IH].
    cbn [app Article.validate_list_str].
    set (name := match find_child "ForeName" x with
                 | Some firstname =>
                     Some (format (text firstname) +:+ " " +:+ format (text lastname))
                 | None => text lastname
                 end).
    destruct name as [n|] eqn:Hn; subst name; [|discriminate]. simpl.
    destruct (Article.validate_list_str (flat_map author_name authors))
      as [ss|] eqn:Hss; [|discriminate].
    simpl. intros [= <-]. constructor; [|now apply IH].
    exists lastname. split; [exact Hl|].
    destruct (find_child "ForeName" x); congruence.
Qed.

(** X8: the authors of an article are the display names of the [Author]
    elements that have a [LastName] child, in document order; an [Author]
    without one (a collective name, say) gives no name. *)
Theorem authors_are_the_named_authors
    (fromstring : string -> result Element) (xml_text : string)
    (pmids : list string) (root article_elem : Element) (i : nat) (a : Article.t) :
  fromstring xml_text = Ok root ->
  findall_desc "PubmedArticle" root !! i = Some article_elem ->
  parse_pubmed_xml fromstring xml_text pmids !! i = Some a ->
  Forall2 display_name
          (List.filter has_last_name (findall_desc "Author" article_elem))
          (Article.authors a).
Proof.
  intros Hroot He Ha. rewrite (parse_pubmed_xml_extracted _ _ _ _ Hroot) in Ha.
  apply extracted_lookup in Ha as (e & He' & Hex).
  assert (e = article_elem) as -> by congruence.
  destruct (extract_article_fields _ _ Hex) as (_ & _ & _ & _ & _ & Hauth & _).
  now apply validated_names.
Qed.

Lemma authors_are_the_named_authors_witness :
  let fromstring := fun _ : string => Ok authored_document in
  exists a,
    parse_pubmed_xml fromstring "" [] !! 0 = Some a
    /\ Article.authors a = ["Marie Curie"; "Bohr"]
    /\ length (findall_desc "Author" authored_article) = 3
    /\ Forall2 display_name
               (List.filter has_last_name (findall_desc "Author" authored_article))
               (Article.authors a).
Proof.
  intros fromstring. eexists. split; [reflexivity|].
  split; [reflexivity|]. split; [reflexivity|].
  apply (authors_are_the_named_authors fromstring "" [] authored_document
           authored_article 0); reflexivity.
Defined.

(** * Further properties of the LLM-backed responses *)

Lemma generate_query_response_dom (content : gmap string value) :
  dom (generate_query_response content) = generate_query_keys.
Proof.
  unfold generate_query_response, generate_query_keys. simpl.
  rewrite !dom_insert_L, !dom_empty_L. set_solver.
Qed.

Lemma classify_response_dom (article_id : string) (content : gmap string value) :
  dom (classify_response article_id content) = classify_keys.
Proof.
  unfold classify_response, classify_keys. simpl.
  rewrite !dom_insert_L, !dom_empty_L. set_solver.
Qed.


(** * Properties of the search handlers *)

Lemma all_str_strings (ids : list string) : all_str (map VStr ids) = Val ids.
Proof.
  induction ids as [|x ids IH]; [reflexivity|]. simpl. now rewrite IH.
Qed.

Lemma str_items_strings (ids : list string) : str_items (VList (map VStr ids)) = ids.
Proof.
  simpl. induction ids as [|x ids IH]; [reflexivity|]. simpl. now rewrite IH.
Qed.

(** X10: [search_publications] sends a request only for the source
    [pubmed]: for [biorxiv] it returns the empty list whatever the
    keywords are, and for any other source (the match is exact, so [PubMed]
    is another source) it raises [HTTPException] with status 400. *)
Theorem only_pubmed_is_searched (rt : Runtime) (request : SearchRequest.t)
    (sent : list Request) :
  SearchRequest.source request <> "pubmed" ->
  fst (search_publications rt request sent) = sent
  /\ (SearchRequest.source request = "biorxiv" ->
        snd (search_publications rt request sent) = Val [])
  /\ (SearchRequest.source request <> "biorxiv" ->
        exists detail,
          snd (search_publications rt request sent)
          = Exc (HTTPException 400 detail)).
Proof.
  intros Hsrc. unfold search_publications.
  apply String.eqb_neq in Hsrc. rewrite Hsrc.
  destruct (String.eqb_spec (SearchRequest.source request) "biorxiv") as [E | E].
  - repeat apply conj; [reflexivity | reflexivity | congruence].
  - repeat apply conj; [reflexivity | congruence | eauto].
Qed.

Lemma only_pubmed_is_searched_witness :
  let request := SearchRequest.mk "HILIC" "PubMed" 20 "AND" "all" in
  SearchRequest.source request <> "pubmed"
  /\ fst (search_publications sample_runtime request []) = []
  /\ exists detail,
       snd (search_publications sample_runtime request [])
       = Exc (HTTPException 400 detail).
Proof.
  intros request.
  assert (SearchRequest.source request <> "pubmed") as Hsrc by discriminate.
  split; [exact Hsrc|].
  destruct (only_pubmed_is_searched sample_runtime request [] Hsrc)
    as (Hsent & _ & Hraise).
  split; [exact Hsent|]. apply Hraise. discriminate.
Defined.

(** X11: [search_pubmed] always sends the identifier search first, with
    the compiled query as the term (the empty query of blank keywords
    included) and [max_results] as it is; after it comes at most one
    request, a detail fetch. *)
Theorem search_pubmed_requests (rt : Runtime) (keywords : string) (max_results : Z)
    (search_mode search_fields : string) (sent : list Request) :
  let first :=
    esearch_request (build_pubmed_query keywords search_mode search_fields)
                    max_results in
  fst (search_pubmed rt keywords max_results search_mode search_fields sent)
    = sent ++ [first]
  \/ exists ids,
       fst (search_pubmed rt keywords max_results search_mode search_fields sent)
       = sent ++ [first; efetch_request ids].
Proof.
  intros first. unfold search_pubmed, io_bind, http, io_lift, io_ret.
  fold first. destruct (send rt first) as [search_response|e]; [|now left].
  destruct (Response.json search_response) as [search_data|e]; [|now left].
  destruct (no_idlist search_data) as [[|]|e]; [now left| |now left].
  destruct (outcome_bind _ _) as [pmids|e]; [|now left].
  destruct (truthy rt pmids); [|now left]. cbn [negb].
  destruct (py_join rt "," pmids) as [ids|e]; [|now left].
  right. exists ids. rewrite <- app_assoc.
  now destruct (send rt (efetch_request ids)).
Qed.

(** X12: when the reply of the identifier search is a dictionary without
    [esearchresult], or with an [esearchresult] dictionary that has no
    [idlist] or an empty one, [search_pubmed] returns the empty list and
    sends no detail fetch. *)
Theorem search_pubmed_without_ids (rt : Runtime) (keywords : string)
    (max_results : Z) (search_mode search_fields : string) (sent : list Request)
    (search_response : Response.t) (search_data : gmap string value) :
  let first :=
    esearch_request (build_pubmed_query keywords search_mode search_fields)
                    max_results in
  send rt first = Val search_response ->
  Response.json search_response = Val (VDict search_data) ->
  (search_data !! "esearchresult" = None
   \/ exists esearchresult,
        search_data !! "esearchresult" = Some (VDict esearchresult)
        /\ (esearchresult !! "idlist" = None
            \/ esearchresult !! "idlist" = Some (VList []))) ->
  search_pubmed rt keywords max_results search_mode search_fields sent
  = (sent ++ [first], Val []).
Proof.
  intros first Hsend Hjson Hcase.
  unfold search_pubmed, io_bind, http, io_lift, io_ret. fold first.
  rewrite Hsend, Hjson. unfold no_idlist, py_in, getitem. simpl.
  destruct Hcase as [-> | (r & -> & [Hid | Hid])]; simpl; rewrite ?Hid;
    reflexivity.
Qed.

Lemma search_pubmed_without_ids_witness :
  let rt :=
    {| send := fun _ =>
         Val (Response.mk 200 "reply"
                (Val (VDict {[ "esearchresult" :=
                                 VDict {[ "ERROR" := VStr "Empty term" ]} ]})));
       json_loads := fun _ => Exc JSONDecodeError;
       fromstring := fun _ => Raise ParseError;
       str := fun _ => "error";
       number_truthy := fun _ => true;
       dict_keys := fun _ => [] |} in
  search_pubmed rt "   " 20 "AND" "all" []
  = ([esearch_request "" 20], Val []).
Proof.
  intros rt.
  apply (search_pubmed_without_ids rt "   " 20 "AND" "all" []
           (Response.mk 200 "reply"
              (Val (VDict {[ "esearchresult" :=
                               VDict {[ "ERROR" := VStr "Empty term" ]} ]})))
           {[ "esearchresult" := VDict {[ "ERROR" := VStr "Empty term" ]} ]}).
  - reflexivity.
  - reflexivity.
  - right. exists {[ "ERROR" := VStr "Empty term" ]}. split; [reflexivity|].
    left. reflexivity.
Defined.

(** X13: when the identifier search finds a non-empty list of identifiers,
    [search_pubmed] sends one detail fetch for all of them, joined by
    commas, and returns what [parse_pubmed_xml] extracts from the text of
    its reply: as many articles as the document gives, whatever
    [max_results] is. *)
Theorem search_pubmed_fetches_the_ids (rt : Runtime) (keywords : string)
    (max_results : Z) (search_mode search_fields : string) (sent : list Request)
    (search_response fetch_response : Response.t)
    (search_data esearchresult : gmap string value) (ids : list string) :
  let first :=
    esearch_request (build_pubmed_query keywords search_mode search_fields)
                    max_results in
  send rt first = Val search_response ->
  Response.json search_response = Val (VDict search_data) ->
  search_data !! "esearchresult" = Some (VDict esearchresult) ->
  esearchresult !! "idlist" = Some (VList (map VStr ids)) ->
  ids <> [] ->
  send rt (efetch_request (join "," ids)) = Val fetch_response ->
  search_pubmed rt keywords max_results search_mode search_fields sent
  = (sent ++ [first; efetch_request (join "," ids)],
     Val (parse_pubmed_xml (fromstring rt) (Response.text fetch_response) ids)).
Proof.
  intros first Hsend Hjson Hres Hid Hne Hfetch.
  unfold search_pubmed, io_bind, http, io_lift, io_ret. fold first.
  rewrite Hsend, Hjson. unfold no_idlist, py_in, getitem. simpl.
  rewrite Hres. simpl. rewrite Hid. simpl.
  destruct ids as [|x ids]; [congruence|].
  cbn [map truthy negb]. unfold py_join.
  change (VStr x :: map VStr ids) with (map VStr (x :: ids)).
  rewrite all_str_strings. cbn [outcome_bind].
  change (match ids with
          | [] => x
          | _ :: _ => x +:+ "," +:+ join "," ids
          end) with (join "," (x :: ids)).
  rewrite Hfetch.
  change (flat_map _ (map VStr (x :: ids)))
    with (str_items (VList (map VStr (x :: ids)))).
  rewrite str_items_strings, <- app_assoc. reflexivity.
Qed.

Lemma search_pubmed_fetches_the_ids_witness :
  search_pubmed sample_runtime "SRM 1950, HILIC" 1 "AND" "title" []
  = ([ esearch_request
         (String dquote "SRM 1950" +:+ String dquote "[Title] AND HILIC[Title]") 1;
       efetch_request "31415" ],
     Val [pmc_article_extracted]).
Proof.
  apply (search_pubmed_fetches_the_ids sample_runtime "SRM 1950, HILIC" 1 "AND"
           "title" [] sample_esearch_reply
           (Response.mk 200 pmc_document_text (Exc JSONDecodeError))
           {[ "esearchresult" :=
                VDict {[ "count" := VStr "1"; "idlist" := VList [VStr "31415"] ]} ]}
           {[ "count" := VStr "1"; "idlist" := VList [VStr "31415"] ]}
           ["31415"]).
  - reflexivity.
  - reflexivity.
  - reflexivity.
  - reflexivity.
  - discriminate.
  - reflexivity.
Defined.

(** * Properties of the LLM-backed handlers *)

(** X14: [generate_query] and [classify_abstract] send no request when the
    API key is unset or empty and exactly one otherwise; they return a
    dictionary with the documented keys or raise [HTTPException] with
    status 500: no other exception and no other status leaves them. *)
Theorem llm_handlers_answer_or_fail_with_500 (rt : Runtime)
    (api_key : option string) (query : QueryGenerationRequest.t)
    (classification : ClassificationRequest.t) (sent : list Request) :
  handler_outcome api_key (generate_query_request api_key query)
    generate_query_keys sent (generate_query rt api_key query sent)
  /\ handler_outcome api_key (classify_request api_key classification)
       classify_keys sent (classify_abstract rt api_key classification sent).
Proof.
  unfold handler_outcome, generate_query, classify_abstract.
  destruct (key_missing api_key).
  { split; (split; [reflexivity | right; eexists; reflexivity]). }
  unfold try_except, io_bind, http, io_lift, io_ret, io_raise.
  fold (generate_query_request api_key query).
  fold (classify_request api_key classification).
  split.
  - destruct (send rt (generate_query_request api_key query)) as [response|e];
      [|split; [reflexivity | right; eexists; reflexivity]].
    destruct (negb (Response.status_code response =? 200)%Z);
      [split; [reflexivity | right; eexists; reflexivity]|].
    destruct (Response.json response) as [result|e];
      [|split; [reflexivity | right; eexists; reflexivity]].
    destruct (message_content result) as [content|e];
      [|split; [reflexivity | right; eexists; reflexivity]].
    destruct (py_loads rt content) as [query_result|e];
      [|split; [reflexivity | right; eexists; reflexivity]].
    destruct (as_dict query_result) as [d|e];
      [|split; [reflexivity | right; eexists; reflexivity]].
    split; [reflexivity|]. left. eexists. split; [reflexivity|].
    split; [apply generate_query_response_dom | reflexivity].
  - destruct (send rt (classify_request api_key classification)) as [response|e];
      [|split; [reflexivity | right; eexists; reflexivity]].
    destruct (negb (Response.status_code response =? 200)%Z);
      [split; [reflexivity | right; eexists; reflexivity]|].
    destruct (Response.json response) as [result|e];
      [|split; [reflexivity | right; eexists; reflexivity]].
    destruct (message_content result) as [content|e];
      [|split; [reflexivity | right; eexists; reflexivity]].
    destruct (py_loads rt content) as [c|e];
      [|split; [reflexivity | right; eexists; reflexivity]].
    destruct (as_dict c) as [d|e];
      [|split; [reflexivity | right; eexists; reflexivity]].
    split; [reflexivity|]. left. eexists. split; [reflexivity|].
    split; [apply classify_response_dom | reflexivity].
Qed.

(** X15: with a key, a reply of status 200 whose first choice has a
    message content that parses to a dictionary is answered with the
    response built from that dictionary, after the one request; this holds
    for both handlers. *)
Theorem llm_handlers_answer_from_the_content (rt : Runtime)
    (api_key : option string) (query : QueryGenerationRequest.t)
    (classification : ClassificationRequest.t) (sent : list Request)
    (response : Response.t) (result : value) (content : string)
    (parsed : gmap string value) :
  key_missing api_key = false ->
  Response.status_code response = 200%Z ->
  Response.json response = Val result ->
  message_content result = Val (VStr content) ->
  json_loads rt content = Val (VDict parsed) ->
  (send rt (generate_query_request api_key query) = Val response ->
     generate_query rt api_key query sent
     = (sent ++ [generate_query_request api_key query],
        Val (generate_query_response parsed)))
  /\ (send rt (classify_request api_key classification) = Val response ->
       classify_abstract rt api_key classification sent
       = (sent ++ [classify_request api_key classification],
          Val (classify_response
                 (ClassificationRequest.article_id classification) parsed))).
Proof.
  intros Hkey Hstatus Hjson Hcontent Hparsed.
  unfold generate_query, classify_abstract. rewrite Hkey.
  unfold try_except, io_bind, http, io_lift, io_ret, io_raise.
  fold (generate_query_request api_key query).
  fold (classify_request api_key classification).
  split; intros ->; rewrite Hstatus; cbn [Z.eqb negb Pos.eqb];
    rewrite Hjson, Hcontent; cbn [py_loads]; rewrite Hparsed; reflexivity.
Qed.

Lemma llm_handlers_answer_from_the_content_witness :
  let query := QueryGenerationRequest.mk "papers on HILIC" in
  let classification := ClassificationRequest.mk "31415" "We deposited the data." in
  snd (generate_query sample_runtime (Some "sk-test") query [])
    = Val (generate_query_response
             {[ "pubmed_query" := VStr "HILIC"; "has_dataset" := VBool true ]})
  /\ snd (classify_abstract sample_runtime (Some "sk-test") classification [])
     = Val (classify_response "31415"
              {[ "pubmed_query" := VStr "HILIC"; "has_dataset" := VBool true ]})
  /\ length (fst (generate_query sample_runtime (Some "sk-test") query [])) = 1.
Proof.
  intros query classification.
  destruct (llm_handlers_answer_from_the_content sample_runtime (Some "sk-test")
              query classification [] (chat_reply 200 (VStr "content"))
              (VDict {[ "choices" :=
                          VList [ VDict {[ "message" :=
                                             VDict {[ "content" := VStr "content" ]} ]} ] ]})
              "content"
              {[ "pubmed_query" := VStr "HILIC"; "has_dataset" := VBool true ]}
              eq_refl eq_refl eq_refl eq_refl eq_refl) as [Hq Hc].
  rewrite (Hq eq_refl), (Hc eq_refl). repeat apply conj; reflexivity.
Defined.

(** X16: with a key, a reply whose status is not 200 makes both handlers
    raise status 500, whatever the status of the reply was; the exception
    raised first, with the text of the reply, is caught by the handler's own
    [except] clause, so the detail that leaves is the text of that
    exception behind the prefix of the clause. *)
Theorem llm_handlers_wrap_upstream_failures (rt : Runtime)
    (api_key : option string) (query : QueryGenerationRequest.t)
    (classification : ClassificationRequest.t) (sent : list Request)
    (response : Response.t) :
  key_missing api_key = false ->
  Response.status_code response <> 200%Z ->
  (send rt (generate_query_request api_key query) = Val response ->
     snd (generate_query rt api_key query sent)
     = Exc (HTTPException 500
              ("Query generation error: "
               +:+ str rt (HTTPException 500
                             ("Query generation failed: "
                              +:+ Response.text response)))))
  /\ (send rt (classify_request api_key classification) = Val response ->
       snd (classify_abstract rt api_key classification sent)
       = Exc (HTTPException 500
                ("Classification error: "
                 +:+ str rt (HTTPException 500
                               ("LLM classification failed: "
                                +:+ Response.text response))))).
Proof.
  intros Hkey Hstatus. apply Z.eqb_neq in Hstatus.
  unfold generate_query, classify_abstract. rewrite Hkey.
  unfold try_except, io_bind, http, io_lift, io_ret, io_raise.
  fold (generate_query_request api_key query).
  fold (classify_request api_key classification).
  split; intros ->; rewrite Hstatus; reflexivity.
Qed.

Lemma llm_handlers_wrap_upstream_failures_witness :
  let query := QueryGenerationRequest.mk "papers on HILIC" in
  snd (generate_query failing_runtime (Some "sk-test") query [])
  = Exc (HTTPException 500
           "Query generation error: Query generation failed: Service Unavailable").
Proof.
  intros query.
  destruct (llm_handlers_wrap_upstream_failures failing_runtime (Some "sk-test")
              query (ClassificationRequest.mk "1" "text") []
              (Response.mk 503 "Service Unavailable" (Exc JSONDecodeError))
              eq_refl ltac:(discriminate)) as [Hq _].
  rewrite (Hq eq_refl). reflexivity.
Defined.
